(** * spai.data.readers: a shallow embedding and its verification

    The development follows [src/spai/data/readers.py]: the two reader
    classes [FileSystemReader] and [LMDBFileStorageReader], the abstract
    [DataReader] they derive from, and the row matcher
    [data_specifier_matches_entry].

    Python exceptions are an error type, and the effects of the readers
    (files opened, lines printed, blob-store streams opened and closed) are
    threaded through a small state-and-exception monad over a [world]. *)

From Stdlib Require Import ZArith Ascii String List Bool Lia.
From stdpp Require Import base option list strings gmap fin_maps.

Local Open Scope string_scope.
Local Open Scope list_scope.

(** ** Exceptions and results *)

(** The exceptions the readers can raise.  [FileNotFoundError] is the
    [NotFound] kind of the specification, [CsvError] its [ParseError] kind,
    [UnidentifiedImageError] and [ImageLoadError] (Pillow's [OSError] on
    undecodable pixel data) its [DecodeError] kind, [KeyError] its
    [MissingColumn] kind. *)
Inductive exn : Type :=
  | NotImplementedError
  | FileNotFoundError
  | KeyError
  | ValueError
  | TypeError
  | CsvError
  | UnidentifiedImageError
  | ImageLoadError.

Inductive result (A : Type) : Type :=
  | Ok (a : A)
  | Raise (e : exn).
Arguments Ok {A} a.
Arguments Raise {A} e.

Definition is_Ok {A} (r : result A) : bool :=
  match r with Ok _ => true | Raise _ => false end.

Definition is_NotFound (e : exn) : bool :=
  match e with FileNotFoundError => true | _ => false end.

Definition is_DecodeError (e : exn) : bool :=
  match e with UnidentifiedImageError | ImageLoadError => true | _ => false end.

Definition is_ParseError (e : exn) : bool :=
  match e with CsvError => true | _ => false end.

(** ** pathlib: pure POSIX paths *)

Module pathlib.

(** The root of a path: none, [/], or the POSIX special case [//]. *)
Inductive anchor : Type := Rel | Abs | Abs2.

Record Path : Type := mkPath { root : anchor; parts : list string }.

Definition anchor_eqb (a b : anchor) : bool :=
  match a, b with
  | Rel, Rel | Abs, Abs | Abs2, Abs2 => true
  | _, _ => false
  end.

Definition slash : ascii := "/"%char.

(** [s.split(sep)] for a one-character separator. *)
Fixpoint split_on (sep : ascii) (s : string) : list string :=
  match s with
  | EmptyString => [EmptyString]
  | String c s' =>
      if Ascii.eqb c sep then EmptyString :: split_on sep s'
      else match split_on sep s' with
           | [] => [String c EmptyString]
           | x :: xs => String c x :: xs
           end
  end.

(** Components kept by the parser: neither empty nor [.]. *)
Definition keep_part (x : string) : bool :=
  negb (String.eqb x "") && negb (String.eqb x ".").

Definition root_of (s : string) : anchor :=
  match s with
  | String a (String b (String c _)) =>
      if Ascii.eqb a slash then
        if Ascii.eqb b slash then
          if Ascii.eqb c slash then Abs else Abs2
        else Abs
      else Rel
  | String a (String b EmptyString) =>
      if Ascii.eqb a slash then
        if Ascii.eqb b slash then Abs2 else Abs
      else Rel
  | String a EmptyString => if Ascii.eqb a slash then Abs else Rel
  | EmptyString => Rel
  end.

(** [pathlib.Path(s)]. *)
Definition of_str (s : string) : Path :=
  {| root := root_of s; parts := List.filter keep_part (split_on slash s) |}.

(** [p / q] for a path [q]: a rooted right operand replaces the left. *)
Definition join (p q : Path) : Path :=
  match root q with
  | Rel => {| root := root p; parts := parts p ++ parts q |}
  | _ => q
  end.

(** [p / s] for a string [s]. *)
Definition div (p : Path) (s : string) : Path := join p (of_str s).

(** [p.parent]: the path without its last component; a path with no
    component is its own parent. *)
Definition parent (p : Path) : Path :=
  {| root := root p; parts := removelast (parts p) |}.

Fixpoint is_prefix (xs ys : list string) : bool :=
  match xs, ys with
  | [], _ => true
  | x :: xs', y :: ys' => String.eqb x y && is_prefix xs' ys'
  | _ :: _, [] => false
  end.

(** [p.is_relative_to(other)]: purely lexical; [other] has the same root
    and its components start those of [p].  A [..] is a component like
    any other. *)
Definition is_relative_to (p other : Path) : bool :=
  anchor_eqb (root p) (root other) && is_prefix (parts other) (parts p).

(** [p.relative_to(other)]: [ValueError] unless [p] is relative to
    [other]. *)
Definition relative_to (p other : Path) : result Path :=
  if is_relative_to p other
  then Ok {| root := Rel; parts := drop (length (parts other)) (parts p) |}
  else Raise ValueError.

(** The components of a path once each [..] is resolved against the
    component before it, as [os.path.normpath] does; above the root of
    an absolute path there is nothing to go up to. *)
Fixpoint resolve_dotdot (absolute : bool) (seen : list string)
    (l : list string) : list string :=
  match l with
  | [] => rev seen
  | x :: l' =>
      if String.eqb x ".." then
        match seen with
        | [] => if absolute then resolve_dotdot absolute [] l'
                else resolve_dotdot absolute [x] l'
        | y :: seen' =>
            if String.eqb y ".." then resolve_dotdot absolute (x :: seen) l'
            else resolve_dotdot absolute seen' l'
        end
      else resolve_dotdot absolute (x :: seen) l'
  end.

Definition normpath (p : Path) : Path :=
  {| root := root p;
     parts := resolve_dotdot (negb (anchor_eqb (root p) Rel)) [] (parts p) |}.

Definition root_str (a : anchor) : string :=
  match a with Rel => "" | Abs => "/" | Abs2 => "//" end.

Fixpoint concat_with (sep : string) (l : list string) : string :=
  match l with
  | [] => ""
  | [x] => x
  | x :: xs => x ++ sep ++ concat_with sep xs
  end.

(** [str(p)]. *)
Definition to_str (p : Path) : string :=
  match root p, parts p with
  | Rel, [] => "."
  | a, l => root_str a ++ concat_with "/" l
  end.

Definition is_absolute (p : Path) : bool := negb (anchor_eqb (root p) Rel).

(** A component as the parser produces it: non-empty, not [.], no [/]. *)
Fixpoint has_slash (s : string) : bool :=
  match s with
  | EmptyString => false
  | String c s' => Ascii.eqb c slash || has_slash s'
  end.

Definition wf_part (x : string) : bool := keep_part x && negb (has_slash x).

Definition wf (p : Path) : bool := forallb wf_part (parts p).

End pathlib.

(** ** The world the readers act on *)

(** A stream handed out by the blob store. *)
Record stream : Type := mkStream {
  s_data : string;
  s_binary : bool;
  s_closed : bool
}.

Record world : Type := mkWorld {
  (** the filesystem: contents of the file at a path, if there is one *)
  w_files : pathlib.Path -> option string;
  (** every path handed to the operating system to be opened, oldest first *)
  w_opened : list pathlib.Path;
  (** the lines printed so far, oldest first *)
  w_stdout : list string;
  (** the streams the blob store has handed out; a handle is an index *)
  w_streams : list stream
}.

(** ** A state-and-exception monad *)

Definition M (A : Type) : Type := world -> result A * world.

Definition ret {A} (a : A) : M A := fun w => (Ok a, w).

Definition raise {A} (e : exn) : M A := fun w => (Raise e, w).

Definition bind {A B} (m : M A) (k : A -> M B) : M B :=
  fun w => match m w with
           | (Ok a, w') => k a w'
           | (Raise e, w') => (Raise e, w')
           end.

(** [try: m except Exception as e: h e]. *)
Definition try_except {A} (m : M A) (h : exn -> M A) : M A :=
  fun w => match m w with
           | (Ok a, w') => (Ok a, w')
           | (Raise e, w') => h e w'
           end.

(** A pure computation that may raise. *)
Definition lift {A} (r : result A) : M A := fun w => (r, w).

Declare Scope py_scope.
Delimit Scope py_scope with py.
Notation "x <- m ;; k" := (bind m (fun x => k))
  (at level 100, m at next level, right associativity) : py_scope.
Notation "m ;;; k" := (bind m (fun _ => k))
  (at level 100, right associativity) : py_scope.
Local Open Scope py_scope.

(** [with cm as x: body]: [exit] runs when the body returns and when it
    raises; a failure of [cm] itself never enters the block. *)
Definition with_ {X A} (cm : M X) (exit : X -> M unit) (body : X -> M A) : M A :=
  x <- cm ;;
  fun w => match body x w with
           | (Ok a, w') => (exit x ;;; ret a) w'
           | (Raise e, w') => (exit x ;;; raise e) w'
           end.

(** The statements of one loop body: carry on with the accumulator or
    [continue] with it unchanged. *)
Fixpoint for_each {A B} (body : A -> list B -> M (list B)) (l : list A)
    (acc : list B) : M (list B) :=
  match l with
  | [] => ret acc
  | a :: l' => acc' <- body a acc ;; for_each body l' acc'
  end.

(** The changes the readers make to the world. *)
Definition log_print (line : string) (w : world) : world :=
  {| w_files := w_files w; w_opened := w_opened w;
     w_stdout := w_stdout w ++ [line]; w_streams := w_streams w |}.

Definition log_open (p : pathlib.Path) (w : world) : world :=
  {| w_files := w_files w; w_opened := w_opened w ++ [p];
     w_stdout := w_stdout w; w_streams := w_streams w |}.

Definition push_stream (s : stream) (w : world) : world :=
  {| w_files := w_files w; w_opened := w_opened w;
     w_stdout := w_stdout w; w_streams := w_streams w ++ [s] |}.

Definition close_stream (s : stream) : stream :=
  {| s_data := s_data s; s_binary := s_binary s; s_closed := true |}.

Definition close_at (h : nat) (w : world) : world :=
  {| w_files := w_files w; w_opened := w_opened w;
     w_stdout := w_stdout w;
     w_streams := alter close_stream h (w_streams w) |}.

Definition print (line : string) : M unit :=
  fun w => (Ok tt, log_print line w).

(** Opening a file for reading: the attempt is recorded; a missing file
    raises [FileNotFoundError]. *)
Definition os_open (p : pathlib.Path) : M string :=
  fun w =>
    match w_files w p with
    | Some data => (Ok data, log_open p w)
    | None => (Raise FileNotFoundError, log_open p w)
    end.

(** Streams: reading from a closed stream is a [ValueError]; closing is
    idempotent. *)
Definition stream_read (h : nat) : M string :=
  fun w => match w_streams w !! h with
           | Some s => if s_closed s then (Raise ValueError, w)
                       else (Ok (s_data s), w)
           | None => (Raise ValueError, w)
           end.

Definition stream_close (h : nat) : M unit :=
  fun w => (Ok tt, close_at h w).

(** Is the stream behind handle [h] closed in [w]? *)
Definition stream_closed (w : world) (h : nat) : bool :=
  match w_streams w !! h with
  | Some s => s_closed s
  | None => false
  end.

(** ** Pillow: [PIL.Image] *)

(** The image codec is the collaborator of the readers: what it makes of a
    byte string is a parameter of the development.  [identify] reads a
    header (native mode and [(width, height)]), [decode] the pixel data,
    [convert_data from to] changes the channel layout of decoded data. *)
Record Codec : Type := mkCodec {
  identify : string -> option (string * (Z * Z));
  decode : string -> option (list Z);
  convert_data : string -> string -> list Z -> list Z
}.

Module PIL.

(** What an image reads its pixel data from. *)
Inductive fp : Type :=
  | FilePtr (data : string)   (* a file Pillow opened itself *)
  | StreamPtr (h : nat)       (* a stream supplied by the caller *)
  | NoFp.

Record Image : Type := mkImage {
  mode : string;
  size : Z * Z;
  im_fp : fp;
  (** pixel data, once loaded *)
  im_data : option (list Z)
}.

(** [len(image.getbands())] for the standard modes. *)
Definition channels_of (m : string) : option nat :=
  if String.eqb m "L" then Some 1
  else if String.eqb m "1" then Some 1
  else if String.eqb m "P" then Some 1
  else if String.eqb m "LA" then Some 2
  else if String.eqb m "RGB" then Some 3
  else if String.eqb m "RGBA" then Some 4
  else if String.eqb m "CMYK" then Some 4
  else None.

Section WithCodec.
Context (codec : Codec).

Definition identified (src : fp) (data : string) : M Image :=
  match identify codec data with
  | Some (m, sz) =>
      ret {| mode := m; size := sz; im_fp := src; im_data := None |}
  | None => raise UnidentifiedImageError
  end.

(** [Image.open(path)]: opens the file and reads the header only. *)
Definition open_path (p : pathlib.Path) : M Image :=
  data <- os_open p ;; identified (FilePtr data) data.

(** [Image.open(stream)]: reads the header from the caller's stream. *)
Definition open_stream (h : nat) : M Image :=
  data <- stream_read h ;; identified (StreamPtr h) data.

(** [image.load()]: reads and decodes the pixel data on first use. *)
Definition load (im : Image) : M (list Z) :=
  match im_data im with
  | Some px => ret px
  | None =>
      data <- match im_fp im with
              | FilePtr d => ret d
              | StreamPtr h => stream_read h
              | NoFp => raise ValueError
              end ;;
      match decode codec data with
      | Some px => ret px
      | None => raise ImageLoadError
      end
  end.

(** [image.convert(m)]: a new image of mode [m] and the same size. *)
Definition convert (im : Image) (m : string) : M Image :=
  px <- load im ;;
  ret {| mode := m; size := size im; im_fp := NoFp;
         im_data := Some (convert_data codec (mode im) m px) |}.

(** Leaving [with Image.open(...) as image]: Pillow closes a file it
    opened itself, which the world does not track, and leaves a stream
    supplied by the caller open. *)
Definition exit (im : Image) : M unit := ret tt.

End WithCodec.

End PIL.

(** ** The [csv] module: [csv.reader] and [csv.DictReader]

    The reader is the state machine of the standard library in the default
    ([excel]) dialect the readers use: delimiter comma, the double quote as quote
    character (doubled inside a quoted field), no escape character, not
    strict. *)

Module csv.

(** A value of a row built by [DictReader]: a cell of the file, [None]
    for a cell missing from a short row, or the list of surplus cells of
    a long row (stored under the key [None]). *)
Inductive cell : Type :=
  | Str (s : string)
  | NoneCell
  | Rest (l : list string).

Definition LF : ascii := "010"%char.
Definition CR : ascii := "013"%char.
Definition comma : ascii := ","%char.
Definition quote : ascii := "034"%char.

(** Text mode with universal newlines: [\r\n] and [\r] read as [\n]. *)
Fixpoint universal_newlines (s : string) : string :=
  match s with
  | EmptyString => EmptyString
  | String c s' =>
      if Ascii.eqb c CR then
        match s' with
        | String c2 s'' =>
            if Ascii.eqb c2 LF then String LF (universal_newlines s'')
            else String LF (universal_newlines s')
        | EmptyString => String LF EmptyString
        end
      else String c (universal_newlines s')
  end.

(** Iterating a text stream: the lines, each with its [\n]. *)
Fixpoint lines_from (cur s : string) : list string :=
  match s with
  | EmptyString => if String.eqb cur "" then [] else [cur]
  | String c s' =>
      if Ascii.eqb c LF then String.append cur (String c "") :: lines_from "" s'
      else lines_from (String.append cur (String c "")) s'
  end.

Definition lines (s : string) : list string := lines_from "" s.

Inductive pstate : Type :=
  | START_RECORD | START_FIELD | IN_FIELD | IN_QUOTED_FIELD
  | QUOTE_IN_QUOTED_FIELD | EAT_CRNL.

Record parser : Type := mkParser {
  state : pstate;
  fields : list string;
  field : string;
  field_len : N
}.

Definition field_limit : N := 131072.

Definition parse_reset : parser :=
  {| state := START_RECORD; fields := []; field := ""; field_len := 0 |}.

Definition set_state (p : parser) (s : pstate) : parser :=
  {| state := s; fields := fields p; field := field p;
     field_len := field_len p |}.

Definition parse_save_field (p : parser) : parser :=
  {| state := state p; fields := fields p ++ [field p]; field := "";
     field_len := 0 |}.

Definition parse_add_char (p : parser) (c : ascii) : result parser :=
  if (field_limit <=? field_len p)%N then Raise CsvError
  else Ok {| state := state p; fields := fields p;
             field := String.append (field p) (String c "");
             field_len := N.succ (field_len p) |}.

(** A character of the line, or the end-of-line mark fed after it. *)
Inductive pchar : Type := Ch (c : ascii) | EOL.

Definition is_newline (c : ascii) : bool := Ascii.eqb c LF || Ascii.eqb c CR.

Definition end_of_record (p : parser) (c : pchar) : result parser :=
  Ok (set_state (parse_save_field p)
        (match c with EOL => START_RECORD | Ch _ => EAT_CRNL end)).

Definition in_start_field (p : parser) (c : pchar) : result parser :=
  match c with
  | EOL => end_of_record p c
  | Ch a =>
      if is_newline a then end_of_record p c
      else if Ascii.eqb a quote then Ok (set_state p IN_QUOTED_FIELD)
      else if Ascii.eqb a comma then Ok (parse_save_field p)
      else match parse_add_char p a with
           | Ok p' => Ok (set_state p' IN_FIELD)
           | Raise e => Raise e
           end
  end.

Definition parse_process_char (p : parser) (c : pchar) : result parser :=
  match state p with
  | START_RECORD =>
      match c with
      | EOL => Ok p
      | Ch a =>
          if is_newline a then Ok (set_state p EAT_CRNL)
          else in_start_field (set_state p START_FIELD) c
      end
  | START_FIELD => in_start_field p c
  | IN_FIELD =>
      match c with
      | EOL => end_of_record p c
      | Ch a =>
          if is_newline a then end_of_record p c
          else if Ascii.eqb a comma
               then Ok (set_state (parse_save_field p) START_FIELD)
               else parse_add_char p a
      end
  | IN_QUOTED_FIELD =>
      match c with
      | EOL => Ok p
      | Ch a =>
          if Ascii.eqb a quote then Ok (set_state p QUOTE_IN_QUOTED_FIELD)
          else parse_add_char p a
      end
  | QUOTE_IN_QUOTED_FIELD =>
      match c with
      | EOL => end_of_record p c
      | Ch a =>
          if Ascii.eqb a quote then
            match parse_add_char p a with
            | Ok p' => Ok (set_state p' IN_QUOTED_FIELD)
            | Raise e => Raise e
            end
          else if Ascii.eqb a comma
               then Ok (set_state (parse_save_field p) START_FIELD)
          else if is_newline a then end_of_record p c
          else match parse_add_char p a with
               | Ok p' => Ok (set_state p' IN_FIELD)
               | Raise e => Raise e
               end
      end
  | EAT_CRNL =>
      match c with
      | EOL => Ok (set_state p START_RECORD)
      | Ch a => if is_newline a then Ok p else Raise CsvError
      end
  end.

(** One line of input: its characters, then the end-of-line mark. *)
Fixpoint parse_line (p : parser) (line : string) : result parser :=
  match line with
  | EmptyString => parse_process_char p EOL
  | String c rest =>
      match parse_process_char p (Ch c) with
      | Ok p' => parse_line p' rest
      | Raise e => Raise e
      end
  end.

Definition is_START_RECORD (s : pstate) : bool :=
  match s with START_RECORD => true | _ => false end.

Definition is_IN_QUOTED_FIELD (s : pstate) : bool :=
  match s with IN_QUOTED_FIELD => true | _ => false end.

(** All the records [next(reader)] yields until [StopIteration]: a record
    is complete when a line leaves the parser in [START_RECORD]; at the
    end of the input a pending field or an open quoted field is one last
    record. *)
Fixpoint reader_from (p : parser) (ls : list string)
    : result (list (list string)) :=
  match ls with
  | [] =>
      if negb (field_len p =? 0)%N || is_IN_QUOTED_FIELD (state p)
      then Ok [fields (parse_save_field p)]
      else Ok []
  | line :: rest =>
      match parse_line p line with
      | Raise e => Raise e
      | Ok p' =>
          if is_START_RECORD (state p') then
            match reader_from parse_reset rest with
            | Ok rows => Ok (fields p' :: rows)
            | Raise e => Raise e
            end
          else reader_from p' rest
      end
  end.

Definition reader (ls : list string) : result (list (list string)) :=
  reader_from parse_reset ls.

(** [dict(pairs)]: a later pair overrides an earlier one with its key. *)
Definition dict_of_pairs (l : list (option string * cell))
    : gmap (option string) cell :=
  fold_left (fun d kv => <[kv.1 := kv.2]> d) l ∅.

Definition is_nil {A} (l : list A) : bool :=
  match l with [] => true | _ => false end.

(** The dictionary [DictReader.__next__] builds from one record. *)
Definition make_row (fieldnames row : list string)
    : gmap (option string) cell :=
  let d := dict_of_pairs (zip (map Some fieldnames) (map Str row)) in
  let lf := length fieldnames in
  let lr := length row in
  if (lf <? lr)%nat then <[None := Rest (drop lf row)]> d
  else if (lr <? lf)%nat
       then fold_left (fun d k => <[Some k := NoneCell]> d)
              (drop lr fieldnames) d
       else d.

(** [[row for row in csv.DictReader(f, delimiter=",")]]: the first
    record names the fields; blank records after it are skipped; with no
    record at all there is nothing to iterate. *)
Definition DictReader (ls : list string)
    : result (list (gmap (option string) cell)) :=
  match reader ls with
  | Raise e => Raise e
  | Ok [] => Ok []
  | Ok (fieldnames :: records) =>
      Ok (map (make_row fieldnames)
            (List.filter (fun r => negb (is_nil r)) records))
  end.

End csv.

(** A CSV row as [DictReader] builds it: column names are [Some] keys, the
    surplus cells of a long row sit under the key [None]. *)
Abbreviation Row := (gmap (option string) csv.cell).

(** A data specifier: required text per column name. *)
Abbreviation Specifier := (gmap string string).

(** ** The blob store *)

(** Modelled from the spec: [spai.data.filestorage.LMDBFileStorage], which
    the readers import but whose module is not among the sources.  The
    specification gives its contract as [open_file(path, mode) -> stream],
    where [mode] selects text or binary decoding and the stream supports
    sequential read and explicit close, and has every read of a
    nonexistent key raise the [NotFound] kind. *)
Module filestorage.

Record LMDBFileStorage : Type := mkStorage { blobs : gmap string string }.

(** Every call hands out a fresh, open stream. *)
Definition open_file (st : LMDBFileStorage) (path : string) (binary : bool)
    : M nat :=
  fun w =>
    match blobs st !! path with
    | Some data =>
        (Ok (length (w_streams w)),
         push_stream
           {| s_data := data; s_binary := binary; s_closed := false |} w)
    | None => (Raise FileNotFoundError, w)
    end.

End filestorage.

(** ** The row matcher *)

(** [k in entry]. *)
Definition dict_contains (d : Row) (k : string) : bool :=
  match d !! Some k with Some _ => true | None => false end.

(** [entry[k]]: a [KeyError] when the key is absent. *)
Definition dict_getitem (d : Row) (k : string) : result csv.cell :=
  match d !! Some k with Some c => Ok c | None => Raise KeyError end.

(** [c != v] for a string [v]: only a text cell holding [v] is equal. *)
Definition cell_ne (c : csv.cell) (v : string) : bool :=
  match c with
  | csv.Str s => negb (String.eqb s v)
  | _ => true
  end.

(** The loop over [specifier.items()]; [or] evaluates [entry[k]] only
    when [k] is in [entry]. *)
Fixpoint matches_items (entry : Row) (items : list (string * string))
    : result bool :=
  match items with
  | [] => Ok true
  | (k, v) :: rest =>
      if negb (dict_contains entry k) then Ok false
      else match dict_getitem entry k with
           | Raise e => Raise e
           | Ok c => if cell_ne c v then Ok false
                     else matches_items entry rest
           end
  end.

Definition data_specifier_matches_entry (entry : Row) (specifier : Specifier)
    : result bool :=
  matches_items entry (map_to_list specifier).

(** ** The readers *)

(** What [load_file_path_or_stream] returns: a path or an open stream. *)
Inductive handle : Type :=
  | PathHandle (p : pathlib.Path)
  | StreamHandle (h : nat).

(** The right operand of [/] must be text: anything else is a
    [TypeError]. *)
Definition path_segment (c : csv.cell) : result string :=
  match c with
  | csv.Str s => Ok s
  | _ => Raise TypeError
  end.

(** [data_specifier is not None and not data_specifier_matches_entry(...)]:
    whether the loop skips the row. *)
Definition skips (data_specifier : option Specifier) (row : Row) : M bool :=
  match data_specifier with
  | None => ret false
  | Some spec => b <- lift (data_specifier_matches_entry row spec) ;;
                 ret (negb b)
  end.

(** The abstract base class: every operation is unimplemented. *)
Module DataReader.

Definition read_csv_file (path : string) : M (list Row) :=
  raise NotImplementedError.

Definition load_image (path : string) (channels : Z) : M PIL.Image :=
  raise NotImplementedError.

Definition get_image_size (path : string) : M (Z * Z) :=
  raise NotImplementedError.

Definition load_signals_from_csv (csv_path column_name : string)
    (channels : Z) (data_specifier : option Specifier)
    : M (list PIL.Image) :=
  raise NotImplementedError.

Definition load_file_path_or_stream (path : string) : M handle :=
  raise NotImplementedError.

End DataReader.

(** Reader that maps relative paths to absolute paths of the filesystem. *)
Module FileSystemReader.

Record t : Type := mk { root_path : pathlib.Path }.

Section WithCodec.
Context (codec : Codec) (self : t).

Definition read_csv_file (path : string) : M (list Row) :=
  data <- os_open (pathlib.div (root_path self) path) ;;
  lift (csv.DictReader (csv.lines (csv.universal_newlines data))).

Definition get_image_size (path : string) : M (Z * Z) :=
  with_ (PIL.open_path codec (pathlib.div (root_path self) path))
        PIL.exit
        (fun image => ret (PIL.size image)).

Definition load_image (path : string) (channels : Z) : M PIL.Image :=
  try_except
    (image <- PIL.open_path codec (pathlib.div (root_path self) path) ;;
     if (channels =? 1)%Z then PIL.convert codec image "L"
     else PIL.convert codec image "RGB")
    (fun e => print (String.append "Failed to read: " path) ;;; raise e).

(** Lines 108 to 111: the body of the loop for a row that is kept. *)
Definition load_signal (csv_path column_name : string) (channels : Z)
    (row : Row) : M PIL.Image :=
  value <- lift (dict_getitem row column_name) ;;
  name <- lift (path_segment value) ;;
  let signal_path :=
    pathlib.div (pathlib.parent (pathlib.div (root_path self) csv_path))
                name in
  rel <- lift (pathlib.relative_to signal_path (root_path self)) ;;
  load_image (pathlib.to_str rel) channels.

(** Lines 103 to 111: the loop over the rows. *)
Definition signals_loop (csv_path column_name : string) (channels : Z)
    (data_specifier : option Specifier)
    : list Row -> list PIL.Image -> M (list PIL.Image) :=
  for_each
    (fun row signals =>
       skip <- skips data_specifier row ;;
       if skip then ret signals
       else signal <- load_signal csv_path column_name channels row ;;
            ret (signals ++ [signal])).

Definition load_signals_from_csv (csv_path column_name : string)
    (channels : Z) (data_specifier : option Specifier)
    : M (list PIL.Image) :=
  csv_data <- read_csv_file csv_path ;;
  signals_loop csv_path column_name channels data_specifier csv_data [].

Definition load_file_path_or_stream (path : string) : M handle :=
  ret (PathHandle (pathlib.div (root_path self) path)).

End WithCodec.

End FileSystemReader.

(** Reader that maps relative paths into an LMDBFileStorage. *)
Module LMDBFileStorageReader.

Record t : Type := mk { storage : filestorage.LMDBFileStorage }.

Section WithCodec.
Context (codec : Codec) (self : t).

(** The text stream is iterated line by line and never closed. *)
Definition read_csv_file (path : string) : M (list Row) :=
  stream <- filestorage.open_file (storage self) path false ;;
  data <- stream_read stream ;;
  lift (csv.DictReader (csv.lines data)).

Definition get_image_size (path : string) : M (Z * Z) :=
  stream <- filestorage.open_file (storage self) path true ;;
  with_ (PIL.open_stream codec stream)
        PIL.exit
        (fun image => ret (PIL.size image)).

Definition load_image (path : string) (channels : Z) : M PIL.Image :=
  stream <- filestorage.open_file (storage self) path true ;;
  image <- with_ (PIL.open_stream codec stream)
                 PIL.exit
                 (fun image =>
                    if (channels =? 1)%Z then PIL.convert codec image "L"
                    else PIL.convert codec image "RGB") ;;
  stream_close stream ;;;
  ret image.

(** Lines 166 to 168: the body of the loop for a row that is kept. *)
Definition load_signal (csv_path column_name : string) (channels : Z)
    (row : Row) : M PIL.Image :=
  value <- lift (dict_getitem row column_name) ;;
  name <- lift (path_segment value) ;;
  let signal_path :=
    pathlib.to_str
      (pathlib.div (pathlib.parent (pathlib.of_str csv_path)) name) in
  load_image signal_path channels.

(** Lines 161 to 168: the loop over the rows. *)
Definition signals_loop (csv_path column_name : string) (channels : Z)
    (data_specifier : option Specifier)
    : list Row -> list PIL.Image -> M (list PIL.Image) :=
  for_each
    (fun row signals =>
       skip <- skips data_specifier row ;;
       if skip then ret signals
       else signal <- load_signal csv_path column_name channels row ;;
            ret (signals ++ [signal])).

Definition load_signals_from_csv (csv_path column_name : string)
    (channels : Z) (data_specifier : option Specifier)
    : M (list PIL.Image) :=
  csv_data <- read_csv_file csv_path ;;
  signals_loop csv_path column_name channels data_specifier csv_data [].

End WithCodec.

(** Not overridden: the method of the base class is inherited. *)
Definition load_file_path_or_stream (self : t) (path : string) : M handle :=
  DataReader.load_file_path_or_stream path.

End LMDBFileStorageReader.

(** ** A reader of either variant

    Callers hold one reader, chosen at configuration time, and call its
    methods; the call dispatches on the class of the reader. *)

Inductive reader : Type :=
  | FileSystem (r : FileSystemReader.t)
  | LMDB (r : LMDBFileStorageReader.t).

Module Reader.

Definition read_csv_file (r : reader) : string -> M (list Row) :=
  match r with
  | FileSystem r => FileSystemReader.read_csv_file r
  | LMDB r => LMDBFileStorageReader.read_csv_file r
  end.

Section WithCodec.
Context (codec : Codec).

Definition load_image (r : reader) : string -> Z -> M PIL.Image :=
  match r with
  | FileSystem r => FileSystemReader.load_image codec r
  | LMDB r => LMDBFileStorageReader.load_image codec r
  end.

Definition get_image_size (r : reader) : string -> M (Z * Z) :=
  match r with
  | FileSystem r => FileSystemReader.get_image_size codec r
  | LMDB r => LMDBFileStorageReader.get_image_size codec r
  end.

Definition load_signal (r : reader)
    : string -> string -> Z -> Row -> M PIL.Image :=
  match r with
  | FileSystem r => FileSystemReader.load_signal codec r
  | LMDB r => LMDBFileStorageReader.load_signal codec r
  end.

Definition load_signals_from_csv (r : reader)
    : string -> string -> Z -> option Specifier -> M (list PIL.Image) :=
  match r with
  | FileSystem r => FileSystemReader.load_signals_from_csv codec r
  | LMDB r => LMDBFileStorageReader.load_signals_from_csv codec r
  end.

End WithCodec.

Definition load_file_path_or_stream (r : reader) : string -> M handle :=
  match r with
  | FileSystem r => FileSystemReader.load_file_path_or_stream r
  | LMDB r => LMDBFileStorageReader.load_file_path_or_stream r
  end.

(** The bytes the backend of the reader holds for a path, if any: the
    file at [root / path], or the blob stored under the key [path]. *)
Definition resource (r : reader) (w : world) (path : string)
    : option string :=
  match r with
  | FileSystem r => w_files w (pathlib.div (FileSystemReader.root_path r) path)
  | LMDB r =>
      filestorage.blobs (LMDBFileStorageReader.storage r) !! path
  end.

(** The lines the CSV parser is fed: a file is read in text mode with
    universal newlines, a blob as it is. *)
Definition text_lines (r : reader) (data : string) : list string :=
  match r with
  | FileSystem _ => csv.lines (csv.universal_newlines data)
  | LMDB _ => csv.lines data
  end.

End Reader.

(** Whether the loop keeps a row: it does when no specifier is given, and
    otherwise when the row matches it. *)
Definition keeps (data_specifier : option Specifier) (row : Row) : bool :=
  match data_specifier with
  | None => true
  | Some spec =>
      match data_specifier_matches_entry row spec with
      | Ok b => b
      | Raise _ => false
      end
  end.

(** The mode [load_image] converts to. *)
Definition target_mode (channels : Z) : string :=
  if (channels =? 1)%Z then "L" else "RGB".

(** The image [load_image] returns for a resource whose header gives the
    mode [m] and the size [sz] and whose pixel data decodes to [px]. *)
Definition converted (codec : Codec) (channels : Z) (m : string)
    (sz : Z * Z) (px : list Z) : PIL.Image :=
  {| PIL.mode := target_mode channels; PIL.size := sz; PIL.im_fp := PIL.NoFp;
     PIL.im_data :=
       Some (convert_data codec m (target_mode channels) px) |}.

(** The stream [open_file] hands out for a blob read in binary mode. *)
Definition binary_stream (data : string) : stream :=
  {| s_data := data; s_binary := true; s_closed := false |}.

(** A byte string is a valid image when the codec both identifies and
    decodes it. *)
Definition valid_image (codec : Codec) (data : string) : bool :=
  match identify codec data, decode codec data with
  | Some _, Some _ => true
  | _, _ => false
  end.

(** ** Sample data *)

Module Samples.

(** A toy image format: the byte [I], a width byte, a height byte, then
    one byte per pixel. *)
Definition codec : Codec :=
  {| identify := fun s =>
       match s with
       | String "I"%char (String w (String h _)) =>
           Some ("P", (Z.of_nat (nat_of_ascii w), Z.of_nat (nat_of_ascii h)))
       | _ => None
       end;
     decode := fun s =>
       match s with
       | String "I"%char (String w (String h px)) =>
           if (String.length px =? nat_of_ascii w * nat_of_ascii h)%nat
           then Some (map (fun c => Z.of_nat (nat_of_ascii c))
                        (list_ascii_of_string px))
           else None
       | _ => None
       end;
     convert_data := fun _ to px =>
       if String.eqb to "RGB" then flat_map (fun v => [v; v; v]) px
       else px |}.

Definition nl : string := String csv.LF "".

(** A two by one image, and bytes that are no image. *)
Definition image_bytes : string :=
  String "I"%char (String "002"%char (String "001"%char "ab")).
Definition junk_bytes : string := "zz".

Definition path_eqb (p q : pathlib.Path) : bool :=
  pathlib.anchor_eqb (pathlib.root p) (pathlib.root q)
  && bool_decide (pathlib.parts p = pathlib.parts q).

Definition files_of (l : list (string * string)) (p : pathlib.Path)
    : option string :=
  snd <$> List.find (fun kv => path_eqb (pathlib.of_str kv.1) p) l.

Definition world_of (l : list (string * string)) : world :=
  {| w_files := files_of l; w_opened := []; w_stdout := [];
     w_streams := [] |}.

Definition manifest : string :=
  String.append "seg_map,class"
    (String.append nl
       (String.append "masks/a.png,1"
          (String.append nl (String.append "masks/b.png,0" nl)))).

Definition manifest_of (rows : list string) : string :=
  fold_right (fun r acc => String.append r (String.append nl acc)) ""
    ("seg_map,class" :: rows).

(** A dataset under [/data]: manifests, masks, bytes that are no image,
    and an empty CSV file. *)
Definition dataset : list (string * string) :=
  [("/data/sub/data.csv", manifest);
   ("/data/sub/abs.csv", manifest_of ["/data/m/a.png,1"]);
   ("/data/sub/up.csv", manifest_of ["../../x.png,1"]);
   ("/data/sub/out.csv", manifest_of ["masks/a.png,1"; "/elsewhere/a.png,0"]);
   ("/data/sub/ragged.csv", manifest_of ["masks/a.png"; "masks/b.png,0,x"]);
   ("/data/sub/masks/a.png", image_bytes);
   ("/data/sub/masks/b.png", image_bytes);
   ("/data/sub/junk.png", junk_bytes);
   ("/data/m/a.png", image_bytes);
   ("/data/empty.csv", "")].

Definition w0 : world := world_of dataset.

(** Rows as [DictReader] builds them. *)
Definition row_of (seg_map class : string) : Row :=
  csv.make_row ["seg_map"; "class"] [seg_map; class].

Definition row_a : Row := row_of "masks/a.png" "1".
Definition row_b : Row := row_of "masks/b.png" "0".

(** The rows of [manifest]. *)
Definition rows : list Row := [row_a; row_b].

(** The specifier that asks for a value of the column [class]. *)
Definition class_is (v : string) : option Specifier :=
  Some {[ "class" := v ]}.

Definition fs : FileSystemReader.t :=
  FileSystemReader.mk (pathlib.of_str "/data").

(** The same dataset in a blob store, keyed by root-relative paths. *)
Definition store : filestorage.LMDBFileStorage :=
  filestorage.mkStorage
    (list_to_map
       [("sub/data.csv", manifest);
        ("sub/ragged.csv", manifest_of ["masks/a.png"; "masks/b.png,0,x"]);
        ("sub/masks/a.png", image_bytes);
        ("sub/masks/b.png", image_bytes);
        ("sub/junk.png", junk_bytes);
        ("empty.csv", "")]).

Definition lmdb : LMDBFileStorageReader.t := LMDBFileStorageReader.mk store.

End Samples.

(** ** Further definitions for the properties of the loop *)

(** The body of the loop of either reader, over the way a kept row is
    loaded: lines 103 to 111 and 161 to 168. *)
Definition signal_loop_body (data_specifier : option Specifier)
    (load : Row -> M PIL.Image) (row : Row) (signals : list PIL.Image)
    : M (list PIL.Image) :=
  skip <- skips data_specifier row ;;
  if skip then ret signals
  else signal <- load row ;; ret (signals ++ [signal]).

(** The stream [open_file] hands out for a blob read in text mode. *)
Definition text_stream (data : string) : stream :=
  {| s_data := data; s_binary := false; s_closed := false |}.

Module MoreSamples.

(** A header that announces two pixels, followed by one only. *)
Definition truncated_bytes : string :=
  String "I"%char (String "002"%char (String "001"%char "a")).

Definition dataset : list (string * string) :=
  [("/data/sub/data.csv", Samples.manifest);
   ("/data/sub/masks/a.png", Samples.image_bytes);
   ("/data/sub/masks/b.png", Samples.image_bytes);
   ("/data/sub/trunc.png", truncated_bytes);
   ("/data/sub/late.csv",
    Samples.manifest_of ["masks/a.png,1"; "gone.png,1"; "masks/b.png,1"]);
   ("/data/sub/nocolumn.csv",
    String.append "image,class"
      (String.append Samples.nl (String.append "masks/a.png,1" Samples.nl)))].

Definition w0 : world := Samples.world_of dataset.

Definition store : filestorage.LMDBFileStorage :=
  filestorage.mkStorage
    (list_to_map
       [("sub/data.csv", Samples.manifest);
        ("sub/masks/a.png", Samples.image_bytes);
        ("sub/masks/b.png", Samples.image_bytes);
        ("sub/trunc.png", truncated_bytes);
        ("sub/late.csv",
         Samples.manifest_of
           ["masks/a.png,1"; "gone.png,1"; "masks/b.png,1"])]).

Definition lmdb : LMDBFileStorageReader.t := LMDBFileStorageReader.mk store.

End MoreSamples.

(** * Verification *)

(** ** Running the monad *)

Lemma bind_ok {A B} (m : M A) (k : A -> M B) w a w' :
  m w = (Ok a, w') -> bind m k w = k a w'.
Proof. intros H. unfold bind. now rewrite H. Qed.

Lemma bind_raise {A B} (m : M A) (k : A -> M B) w e w' :
  m w = (Raise e, w') -> bind m k w = (Raise e, w').
Proof. intros H. unfold bind. now rewrite H. Qed.

Lemma for_each_app {A B} (body : A -> list B -> M (list B)) l1 l2 acc w :
  for_each body (l1 ++ l2) acc w =
  match for_each body l1 acc w with
  | (Ok acc', w') => for_each body l2 acc' w'
  | (Raise e, w') => (Raise e, w')
  end.
Proof.
  revert acc w. induction l1 as [|a l1 IH]; intros acc w; simpl.
  - reflexivity.
  - unfold bind. destruct (body a acc w) as [[acc'|e] w']; [apply IH | reflexivity].
Qed.

(** ** The row matcher *)

Section Matcher.
Context (entry : Row).

Lemma matches_items_total items : exists b, matches_items entry items = Ok b.
Proof.
  induction items as [|[k v] rest IH]; simpl; [eauto|].
  unfold dict_contains, dict_getitem.
  destruct (entry !! Some k) as [c|]; simpl; [|eauto].
  destruct (cell_ne c v); eauto.
Qed.

Lemma cell_ne_false c v : cell_ne c v = false <-> c = csv.Str v.
Proof.
  destruct c as [s| |l]; simpl; split; try discriminate.
  - intros H. apply negb_false_iff, String.eqb_eq in H. now subst.
  - intros [= ->]. now rewrite String.eqb_refl.
Qed.

Lemma matches_items_true items :
  matches_items entry items = Ok true <->
  Forall (fun kv => entry !! Some kv.1 = Some (csv.Str kv.2)) items.
Proof.
  induction items as [|[k v] rest IH]; simpl.
  - split; [constructor | reflexivity].
  - unfold dict_contains, dict_getitem.
    destruct (entry !! Some k) as [c|] eqn:E; simpl.
    + destruct (cell_ne c v) eqn:N.
      * split; [discriminate|]. intros H. inversion H as [|? ? Hk _]; subst.
        simpl in Hk. rewrite E in Hk. injection Hk as ->.
        assert (cell_ne (csv.Str v) v = false) as F by now apply cell_ne_false.
        congruence.
      * apply cell_ne_false in N as ->. rewrite IH. split.
        -- intros H. constructor; [assumption | exact H].
        -- intros H. now inversion H.
    + split; [discriminate|]. intros H. inversion H as [|? ? Hk _]; subst.
      simpl in Hk. congruence.
Qed.

Lemma matches_items_absent items k v :
  (k, v) ∈ items -> entry !! Some k = None ->
  matches_items entry items = Ok false.
Proof.
  intros Hin Hk. induction items as [|[k' v'] rest IH]; [inversion Hin|].
  simpl. unfold dict_contains, dict_getitem.
  apply elem_of_cons in Hin as [[= <- <-]|Hin].
  - now rewrite Hk.
  - destruct (entry !! Some k') as [c|]; simpl; [|reflexivity].
    destruct (cell_ne c v'); [reflexivity | now apply IH].
Qed.

End Matcher.

(** C2. The row matcher always returns a boolean, never an error; it
    returns true exactly when every pair [(k, v)] of the specifier has [k]
    among the keys of the row with the text [v] as its value; so it is
    true for the empty specifier, and false when a key of the specifier is
    absent from the row. *)
Theorem data_specifier_matches_entry_spec (R : Row) (S : Specifier) :
  (exists b, data_specifier_matches_entry R S = Ok b) /\
  (data_specifier_matches_entry R S = Ok true <->
   forall k v, S !! k = Some v -> R !! Some k = Some (csv.Str v)) /\
  data_specifier_matches_entry R ∅ = Ok true /\
  (forall k, is_Some (S !! k) -> R !! Some k = None ->
             data_specifier_matches_entry R S = Ok false).
Proof.
  unfold data_specifier_matches_entry.
  split; [apply matches_items_total|].
  split; [|split].
  - rewrite matches_items_true, Forall_forall. split.
    + intros H k v Hkv. apply (H (k, v)). now apply elem_of_map_to_list.
    + intros H [k v] Hin. apply elem_of_map_to_list in Hin. now apply H.
  - now rewrite map_to_list_empty.
  - intros k [v Hv] Hk. apply (matches_items_absent R _ k v); [|assumption].
    now apply elem_of_map_to_list.
Qed.

(** ** What the image operations do, case by case *)

Section Runs.
Context (codec : Codec).

Lemma stream_read_fresh s w :
  s_closed s = false ->
  stream_read (length (w_streams w)) (push_stream s w)
  = (Ok (s_data s), push_stream s w).
Proof.
  intros Hs. unfold stream_read, push_stream; simpl.
  rewrite list_lookup_middle by reflexivity. now rewrite Hs.
Qed.

Lemma fs_load_image_run (self : FileSystemReader.t) path channels w :
  let p := pathlib.div (FileSystemReader.root_path self) path in
  let failed := log_print (String.append "Failed to read: " path)
                  (log_open p w) in
  FileSystemReader.load_image codec self path channels w =
  match w_files w p with
  | None => (Raise FileNotFoundError, failed)
  | Some data =>
      match identify codec data with
      | None => (Raise UnidentifiedImageError, failed)
      | Some (m, sz) =>
          match decode codec data with
          | None => (Raise ImageLoadError, failed)
          | Some px => (Ok (converted codec channels m sz px), log_open p w)
          end
      end
  end.
Proof.
  intros p failed.
  unfold FileSystemReader.load_image, try_except, bind, PIL.open_path,
    os_open, PIL.identified, bind.
  fold p. destruct (w_files w p) as [data|]; [|reflexivity].
  destruct (identify codec data) as [[m sz]|]; [|reflexivity].
  unfold ret, converted, target_mode.
  destruct (channels =? 1)%Z; unfold PIL.convert, PIL.load, bind; simpl;
    destruct (decode codec data); reflexivity.
Qed.

Lemma fs_get_image_size_run (self : FileSystemReader.t) path w :
  let p := pathlib.div (FileSystemReader.root_path self) path in
  FileSystemReader.get_image_size codec self path w =
  match w_files w p with
  | None => (Raise FileNotFoundError, log_open p w)
  | Some data =>
      match identify codec data with
      | None => (Raise UnidentifiedImageError, log_open p w)
      | Some (m, sz) => (Ok sz, log_open p w)
      end
  end.
Proof.
  intros p.
  unfold FileSystemReader.get_image_size, with_, bind, PIL.open_path,
    os_open, PIL.identified, bind.
  fold p. destruct (w_files w p) as [data|]; [|reflexivity].
  destruct (identify codec data) as [[m sz]|]; reflexivity.
Qed.

Lemma lmdb_load_image_run (self : LMDBFileStorageReader.t) path channels w :
  LMDBFileStorageReader.load_image codec self path channels w =
  match filestorage.blobs (LMDBFileStorageReader.storage self) !! path with
  | None => (Raise FileNotFoundError, w)
  | Some data =>
      let w1 := push_stream (binary_stream data) w in
      match identify codec data with
      | None => (Raise UnidentifiedImageError, w1)
      | Some (m, sz) =>
          match decode codec data with
          | None => (Raise ImageLoadError, w1)
          | Some px =>
              (Ok (converted codec channels m sz px),
               close_at (length (w_streams w)) w1)
          end
      end
  end.
Proof.
  unfold LMDBFileStorageReader.load_image, filestorage.open_file.
  unfold bind at 1.
  destruct (filestorage.blobs _ !! path) as [data|]; [|reflexivity].
  fold (binary_stream data). cbv zeta.
  unfold bind at 1. unfold with_. unfold bind at 1.
  unfold PIL.open_stream. unfold bind at 1.
  rewrite stream_read_fresh by reflexivity. simpl s_data.
  unfold PIL.identified.
  destruct (identify codec data) as [[m sz]|]; [|reflexivity].
  unfold ret at 1.
  assert (forall t, PIL.convert codec
            {| PIL.mode := m; PIL.size := sz;
               PIL.im_fp := PIL.StreamPtr (length (w_streams w));
               PIL.im_data := None |} t
            (push_stream (binary_stream data) w)
          = match decode codec data with
            | None => (Raise ImageLoadError,
                       push_stream (binary_stream data) w)
            | Some px =>
                (Ok {| PIL.mode := t; PIL.size := sz; PIL.im_fp := PIL.NoFp;
                       PIL.im_data := Some (convert_data codec m t px) |},
                 push_stream (binary_stream data) w)
            end) as Hconv.
  { intros t. unfold PIL.convert, PIL.load; simpl.
    unfold bind at 1. unfold bind at 1.
    rewrite stream_read_fresh by reflexivity. simpl.
    destruct (decode codec data); reflexivity. }
  unfold converted, target_mode.
  destruct (channels =? 1)%Z; rewrite Hconv;
    destruct (decode codec data); reflexivity.
Qed.

Lemma lmdb_get_image_size_run (self : LMDBFileStorageReader.t) path w :
  LMDBFileStorageReader.get_image_size codec self path w =
  match filestorage.blobs (LMDBFileStorageReader.storage self) !! path with
  | None => (Raise FileNotFoundError, w)
  | Some data =>
      let w1 := push_stream (binary_stream data) w in
      match identify codec data with
      | None => (Raise UnidentifiedImageError, w1)
      | Some (m, sz) => (Ok sz, w1)
      end
  end.
Proof.
  unfold LMDBFileStorageReader.get_image_size, filestorage.open_file.
  unfold bind at 1.
  destruct (filestorage.blobs _ !! path) as [data|]; [|reflexivity].
  fold (binary_stream data). cbv zeta.
  unfold with_. unfold bind at 1.
  unfold PIL.open_stream. unfold bind at 1.
  rewrite stream_read_fresh by reflexivity. simpl s_data.
  unfold PIL.identified.
  destruct (identify codec data) as [[m sz]|]; reflexivity.
Qed.

End Runs.

(** ** Channel depth and image size *)

Lemma valid_image_inv codec data :
  valid_image codec data = true ->
  exists m sz px,
    identify codec data = Some (m, sz) /\ decode codec data = Some px.
Proof.
  unfold valid_image. destruct (identify codec data) as [[m sz]|]; [|discriminate].
  destruct (decode codec data) as [px|]; [|discriminate]. eauto.
Qed.

(** What [load_image] returns for a valid image, for either reader. *)
Lemma load_image_valid codec (r : reader) path channels w data m sz px :
  Reader.resource r w path = Some data ->
  identify codec data = Some (m, sz) ->
  decode codec data = Some px ->
  exists w',
    Reader.load_image codec r path channels w
    = (Ok (converted codec channels m sz px), w')
    /\ w_files w' = w_files w.
Proof.
  intros Hres Hid Hdec. destruct r as [r|r]; simpl in *.
  - rewrite fs_load_image_run. cbv zeta. rewrite Hres, Hid, Hdec. eauto.
  - rewrite lmdb_load_image_run. rewrite Hres. cbv zeta. rewrite Hid, Hdec.
    eauto.
Qed.

(** C8. For either reader and every valid image resource, [load_image]
    with [channels] equal to 1 returns a single-channel image of mode [L],
    and with any other [channels] a three-channel image of mode [RGB]. *)
Theorem load_image_channel_depth codec (r : reader) path channels w data :
  Reader.resource r w path = Some data ->
  valid_image codec data = true ->
  exists im w',
    Reader.load_image codec r path channels w = (Ok im, w') /\
    (channels = 1%Z ->
       PIL.mode im = "L" /\ PIL.channels_of (PIL.mode im) = Some 1%nat) /\
    (channels <> 1%Z ->
       PIL.mode im = "RGB" /\ PIL.channels_of (PIL.mode im) = Some 3%nat).
Proof.
  intros Hres Hvalid.
  destruct (valid_image_inv _ _ Hvalid) as (m & sz & px & Hid & Hdec).
  destruct (load_image_valid codec r path channels w data m sz px Hres Hid Hdec)
    as (w' & Hrun & _).
  exists (converted codec channels m sz px), w'.
  split; [exact Hrun|]. unfold converted, target_mode; simpl. split.
  - intros ->. simpl. split; reflexivity.
  - intros Hne. apply Z.eqb_neq in Hne. rewrite Hne. split; reflexivity.
Qed.

Lemma load_image_channel_depth_witness :
  exists im w',
    Reader.load_image Samples.codec (FileSystem Samples.fs)
      "sub/masks/a.png" 1 Samples.w0 = (Ok im, w') /\
    (1%Z = 1%Z ->
       PIL.mode im = "L" /\ PIL.channels_of (PIL.mode im) = Some 1%nat) /\
    (1%Z <> 1%Z ->
       PIL.mode im = "RGB" /\ PIL.channels_of (PIL.mode im) = Some 3%nat).
Proof.
  apply (load_image_channel_depth Samples.codec (FileSystem Samples.fs)
           "sub/masks/a.png" 1 Samples.w0 Samples.image_bytes);
    reflexivity.
Defined.

(** C9. For either reader and every path holding a valid image,
    [get_image_size] returns the [(width, height)] of the image that
    [load_image] decodes from that path. *)
Theorem get_image_size_agrees_with_load_image codec (r : reader) path
    channels w data :
  Reader.resource r w path = Some data ->
  valid_image codec data = true ->
  exists sz w1 im w2,
    Reader.get_image_size codec r path w = (Ok sz, w1) /\
    Reader.load_image codec r path channels w = (Ok im, w2) /\
    PIL.size im = sz.
Proof.
  intros Hres Hvalid.
  destruct (valid_image_inv _ _ Hvalid) as (m & sz & px & Hid & Hdec).
  destruct (load_image_valid codec r path channels w data m sz px Hres Hid Hdec)
    as (w2 & Hrun & _).
  exists sz.
  destruct r as [r|r]; simpl in *.
  - eexists _, _, w2. split; [|split; [exact Hrun | reflexivity]].
    rewrite fs_get_image_size_run. cbv zeta. now rewrite Hres, Hid.
  - eexists _, _, w2. split; [|split; [exact Hrun | reflexivity]].
    rewrite lmdb_get_image_size_run. rewrite Hres. cbv zeta. now rewrite Hid.
Qed.

Lemma get_image_size_agrees_with_load_image_witness :
  exists sz w1 im w2,
    Reader.get_image_size Samples.codec (LMDB Samples.lmdb)
      "sub/masks/a.png" Samples.w0 = (Ok sz, w1) /\
    Reader.load_image Samples.codec (LMDB Samples.lmdb)
      "sub/masks/a.png" 3 Samples.w0 = (Ok im, w2) /\
    PIL.size im = sz.
Proof.
  apply (get_image_size_agrees_with_load_image Samples.codec
           (LMDB Samples.lmdb) "sub/masks/a.png" 3 Samples.w0
           Samples.image_bytes); reflexivity.
Defined.

(** ** Streams of the blob store *)

Lemma stream_closed_push s w :
  stream_closed (push_stream s w) (length (w_streams w)) = s_closed s.
Proof.
  unfold stream_closed, push_stream; simpl.
  now rewrite list_lookup_middle by reflexivity.
Qed.

Lemma stream_closed_close_at s w :
  stream_closed (close_at (length (w_streams w)) (push_stream s w))
    (length (w_streams w)) = true.
Proof.
  unfold stream_closed, close_at, push_stream; simpl.
  rewrite list_lookup_alter_eq.
  now rewrite list_lookup_middle by reflexivity.
Qed.

(** When [load_image] returns an image, the stream it opened is closed. *)
Lemma lmdb_load_image_ok_closes codec (self : LMDBFileStorageReader.t) path
    channels w im w' :
  LMDBFileStorageReader.load_image codec self path channels w = (Ok im, w') ->
  stream_closed w' (length (w_streams w)) = true.
Proof.
  rewrite lmdb_load_image_run.
  destruct (filestorage.blobs _ !! path) as [data|]; [|discriminate].
  cbv zeta. destruct (identify codec data) as [[m sz]|]; [|discriminate].
  destruct (decode codec data); [|discriminate].
  intros [= _ <-]. apply stream_closed_close_at.
Qed.

(** C1. In the blob-store reader the stream opened by [load_image] is
    closed exactly when the call returns an image: when the call raises,
    as it does on bytes that do not decode, the stream stays open.  The
    stream opened by [get_image_size] is never closed. *)
Theorem lmdb_stream_closed_only_on_success :
  (forall codec (self : LMDBFileStorageReader.t) path channels w,
     stream_closed
       (LMDBFileStorageReader.load_image codec self path channels w).2
       (length (w_streams w))
     = is_Ok (LMDBFileStorageReader.load_image codec self path channels w).1)
  /\ (forall codec (self : LMDBFileStorageReader.t) path w,
        stream_closed
          (LMDBFileStorageReader.get_image_size codec self path w).2
          (length (w_streams w)) = false)
  /\ LMDBFileStorageReader.load_image Samples.codec Samples.lmdb
       "sub/junk.png" 1 Samples.w0
     = (Raise UnidentifiedImageError,
        push_stream (binary_stream Samples.junk_bytes) Samples.w0)
  /\ LMDBFileStorageReader.get_image_size Samples.codec Samples.lmdb
       "sub/masks/a.png" Samples.w0
     = (Ok (2, 1)%Z,
        push_stream (binary_stream Samples.image_bytes) Samples.w0).
Proof.
  split; [|split; [|split; reflexivity]].
  - intros codec self path channels w. rewrite lmdb_load_image_run.
    destruct (filestorage.blobs _ !! path) as [data|]; simpl.
    + destruct (identify codec data) as [[m sz]|]; simpl;
        [destruct (decode codec data); simpl|].
      * apply stream_closed_close_at.
      * apply (stream_closed_push (binary_stream data)).
      * apply (stream_closed_push (binary_stream data)).
    + unfold stream_closed. now rewrite lookup_ge_None_2 by lia.
  - intros codec self path w. rewrite lmdb_get_image_size_run.
    destruct (filestorage.blobs _ !! path) as [data|]; simpl.
    + destruct (identify codec data) as [[m sz]|]; simpl;
        apply (stream_closed_push (binary_stream data)).
    + unfold stream_closed. now rewrite lookup_ge_None_2 by lia.
Qed.

(** ** [load_file_path_or_stream] *)

(** C5. The filesystem reader returns the path [root / path]; the
    blob-store reader does not override the method of the base class, so
    the call raises [NotImplementedError] and no stream is opened. *)
Theorem load_file_path_or_stream_variants :
  (forall (self : FileSystemReader.t) path w,
     FileSystemReader.load_file_path_or_stream self path w
     = (Ok (PathHandle (pathlib.div (FileSystemReader.root_path self) path)),
        w))
  /\ (forall (self : LMDBFileStorageReader.t) path w,
        LMDBFileStorageReader.load_file_path_or_stream self path w
        = (Raise NotImplementedError, w))
  /\ Reader.load_file_path_or_stream (LMDB Samples.lmdb) "sub/masks/a.png"
       Samples.w0
     = (Raise NotImplementedError, Samples.w0).
Proof. repeat split. Qed.

(** ** Reporting of decode failures *)

(** The filesystem reader prints the path when [load_image] fails. *)
Lemma fs_load_image_failure_reported codec (self : FileSystemReader.t) path
    channels w e w' :
  FileSystemReader.load_image codec self path channels w = (Raise e, w') ->
  w_stdout w' = w_stdout w ++ [String.append "Failed to read: " path].
Proof.
  rewrite fs_load_image_run. cbv zeta.
  destruct (w_files w _) as [data|]; [|now intros [= _ <-]].
  destruct (identify codec data) as [[m sz]|]; [|now intros [= _ <-]].
  destruct (decode codec data); [discriminate | now intros [= _ <-]].
Qed.

(** C7. The blob-store reader never prints anything in [load_image]: a
    decode failure is raised to the caller, but without the path being
    reported, unlike in the filesystem reader. *)
Theorem lmdb_load_image_failure_not_reported :
  (forall codec (self : LMDBFileStorageReader.t) path channels w,
     w_stdout (LMDBFileStorageReader.load_image codec self path channels w).2
     = w_stdout w)
  /\ (LMDBFileStorageReader.load_image Samples.codec Samples.lmdb
        "sub/junk.png" 1 Samples.w0).1 = Raise UnidentifiedImageError
  /\ w_stdout (LMDBFileStorageReader.load_image Samples.codec Samples.lmdb
                 "sub/junk.png" 1 Samples.w0).2 = []
  /\ (FileSystemReader.load_image Samples.codec Samples.fs
        "sub/junk.png" 1 Samples.w0).1 = Raise UnidentifiedImageError
  /\ w_stdout (FileSystemReader.load_image Samples.codec Samples.fs
                 "sub/junk.png" 1 Samples.w0).2
     = ["Failed to read: sub/junk.png"].
Proof.
  split; [|repeat split].
  intros codec self path channels w. rewrite lmdb_load_image_run.
  destruct (filestorage.blobs _ !! path) as [data|]; [|reflexivity].
  cbv zeta. destruct (identify codec data) as [[m sz]|]; [|reflexivity].
  destruct (decode codec data); reflexivity.
Qed.

(** ** Paths *)

Module pathlib_facts.
Import pathlib.

Lemma has_slash_split s :
  Forall (fun x => has_slash x = false) (split_on slash s).
Proof.
  induction s as [|c s IH]; simpl.
  - repeat constructor.
  - destruct (Ascii.eqb c slash) eqn:E.
    + constructor; [reflexivity | exact IH].
    + destruct (split_on slash s) as [|x xs].
      * repeat constructor. simpl. now rewrite E.
      * inversion IH; subst. constructor; [|assumption].
        simpl. now rewrite E.
Qed.

(** Every component the parser produces is well formed. *)
Lemma of_str_wf s : Forall (fun x => wf_part x = true) (parts (of_str s)).
Proof.
  unfold of_str; simpl. apply Forall_forall. intros x Hx.
  apply list_elem_of_In, filter_In in Hx as [Hin Hkeep].
  unfold wf_part. rewrite Hkeep. simpl.
  pose proof (has_slash_split s) as H. rewrite Forall_forall in H.
  rewrite (H x); [reflexivity | now apply list_elem_of_In].
Qed.

Lemma split_on_no_sep x : has_slash x = false -> split_on slash x = [x].
Proof.
  induction x as [|c x IH]; simpl; [reflexivity|].
  intros H. apply orb_false_iff in H as [Hc Hx].
  rewrite Hc, IH by assumption. reflexivity.
Qed.

Lemma split_on_app x s :
  has_slash x = false ->
  split_on slash (String.append x (String slash s)) = x :: split_on slash s.
Proof.
  induction x as [|c x IH]; simpl; intros H.
  - reflexivity.
  - apply orb_false_iff in H as [Hc Hx].
    rewrite Hc, IH by assumption. reflexivity.
Qed.

Lemma wf_part_no_slash x : wf_part x = true -> has_slash x = false.
Proof.
  unfold wf_part. intros H. apply andb_prop in H as [_ H].
  now apply negb_true_iff.
Qed.

Lemma wf_part_keep x : wf_part x = true -> keep_part x = true.
Proof. unfold wf_part. intros H. now apply andb_prop in H as [H _]. Qed.

Lemma split_concat l :
  l <> [] -> Forall (fun x => wf_part x = true) l ->
  split_on slash (concat_with "/" l) = l.
Proof.
  induction l as [|x l IH]; [congruence|]. intros _ H.
  inversion H as [|? ? Hx Hl]; subst.
  destruct l as [|y l].
  - simpl. now apply split_on_no_sep, wf_part_no_slash.
  - change (concat_with "/" (x :: y :: l))
      with (String.append x (String slash (concat_with "/" (y :: l)))).
    rewrite split_on_app by now apply wf_part_no_slash.
    f_equal. now apply IH.
Qed.

Lemma filter_keep l :
  Forall (fun x => wf_part x = true) l -> List.filter keep_part l = l.
Proof.
  induction 1 as [|x l Hx _ IH]; simpl; [reflexivity|].
  now rewrite (wf_part_keep x Hx), IH.
Qed.

Lemma root_of_rel c s : Ascii.eqb c slash = false -> root_of (String c s) = Rel.
Proof. intros H. destruct s as [|b [|d s]]; simpl; now rewrite H. Qed.

Lemma root_of_concat l :
  Forall (fun x => wf_part x = true) l -> root_of (concat_with "/" l) = Rel.
Proof.
  destruct 1 as [|x l Hx _]; [reflexivity|].
  destruct x as [|c x]; [discriminate|].
  apply wf_part_no_slash in Hx. simpl in Hx.
  apply orb_false_iff in Hx as [Hc _].
  destruct l; simpl; now apply root_of_rel.
Qed.

(** Parsing the text of a relative path gives the path back. *)
Lemma of_str_to_str l :
  Forall (fun x => wf_part x = true) l ->
  of_str (to_str {| root := Rel; parts := l |}) = {| root := Rel; parts := l |}.
Proof.
  intros H. destruct l as [|x l]; [reflexivity|].
  unfold to_str, of_str. simpl root. simpl parts. cbv iota. simpl root_str.
  change (String.append "" ?s) with s.
  rewrite root_of_concat, split_concat, filter_keep by (assumption || discriminate).
  reflexivity.
Qed.

Lemma is_prefix_app xs ys :
  is_prefix xs ys = true -> ys = xs ++ drop (length xs) ys.
Proof.
  revert ys. induction xs as [|x xs IH]; intros [|y ys]; simpl;
    try reflexivity; try discriminate.
  intros H. apply andb_prop in H as [Hxy H].
  apply String.eqb_eq in Hxy as ->. f_equal. now apply IH.
Qed.

Lemma is_prefix_app_refl xs ys : is_prefix xs (xs ++ ys) = true.
Proof. induction xs; simpl; [reflexivity|]. now rewrite String.eqb_refl. Qed.

Lemma anchor_eqb_eq a b : anchor_eqb a b = true -> a = b.
Proof. destruct a, b; simpl; congruence. Qed.

Lemma anchor_eqb_refl a : anchor_eqb a a = true.
Proof. now destruct a. Qed.

Lemma relative_to_Ok p other rel :
  relative_to p other = Ok rel ->
  root p = root other /\ root rel = Rel
  /\ parts p = parts other ++ parts rel
  /\ parts rel = drop (length (parts other)) (parts p).
Proof.
  unfold relative_to, is_relative_to.
  destruct (anchor_eqb (root p) (root other)) eqn:Ha; [|discriminate].
  destruct (is_prefix (parts other) (parts p)) eqn:Hp; [|discriminate].
  simpl. intros [= <-]. simpl.
  split; [now apply anchor_eqb_eq|]. split; [reflexivity|].
  split; [now apply is_prefix_app | reflexivity].
Qed.

Lemma relative_to_Raise p other e :
  relative_to p other = Raise e -> e = ValueError.
Proof.
  unfold relative_to. destruct (is_relative_to _ _); [discriminate | congruence].
Qed.

(** What is left of a path under [other] rejoins [other] to the path,
    when its components are well formed. *)
Lemma relative_to_div p other rel :
  relative_to p other = Ok rel ->
  Forall (fun x => wf_part x = true) (parts rel) ->
  div other (to_str rel) = p.
Proof.
  intros H Hwf. apply relative_to_Ok in H as (Hroot & Hrel & Hparts & _).
  destruct rel as [a l]; simpl in *; subst a.
  unfold div. rewrite of_str_to_str by assumption.
  unfold join; simpl. destruct p as [rp pp]; simpl in *. congruence.
Qed.

Lemma Forall_removelast {A} (P : A -> Prop) l :
  Forall P l -> Forall P (removelast l).
Proof.
  induction 1 as [|x l Hx Hl IH]; simpl; [constructor|].
  destruct l; [constructor|]. constructor; assumption.
Qed.

Lemma Forall_drop_app {A} (P : A -> Prop) n (l k : list A) :
  length l <= n -> Forall P k -> Forall P (drop n (l ++ k)).
Proof.
  intros Hn Hk. rewrite drop_app_ge by assumption. now apply Forall_drop.
Qed.

Lemma length_removelast_le {A} (l : list A) : length (removelast l) <= length l.
Proof.
  induction l as [|x l IH]; simpl; [lia|]. destruct l; simpl in *; lia.
Qed.

(** The components the filesystem reader hands to [load_image] are well
    formed, whatever the root. *)
Lemma signal_rel_wf r csv_path name rel :
  relative_to (div (parent (div r csv_path)) name) r = Ok rel ->
  Forall (fun x => wf_part x = true) (parts rel).
Proof.
  intros H. apply relative_to_Ok in H as (_ & _ & _ & ->).
  pose proof (of_str_wf name) as Hn. pose proof (of_str_wf csv_path) as Hc.
  unfold div.
  destruct (of_str name) as [rn pn], (of_str csv_path) as [rc pc].
  unfold join; simpl in Hn, Hc; simpl root.
  destruct rn; simpl parts; try now apply Forall_drop.
  destruct rc; simpl parts.
  - destruct pc as [|c cs].
    + rewrite app_nil_r. apply Forall_drop_app;
        [apply length_removelast_le | assumption].
    + rewrite removelast_app by discriminate. rewrite <- app_assoc.
      apply Forall_drop_app; [lia|]. apply Forall_app. split; [|assumption].
      now apply Forall_removelast.
  - apply Forall_drop, Forall_app. split; [|assumption].
    now apply Forall_removelast.
  - apply Forall_drop, Forall_app. split; [|assumption].
    now apply Forall_removelast.
Qed.

End pathlib_facts.

(** ** Resolving the path of a signal in the filesystem reader *)

Section FsSignals.
Context (codec : Codec) (self : FileSystemReader.t).

Lemma fs_load_image_opens path channels w :
  w_opened (FileSystemReader.load_image codec self path channels w).2
  = w_opened w ++ [pathlib.div (FileSystemReader.root_path self) path].
Proof.
  rewrite fs_load_image_run. cbv zeta.
  destruct (w_files w _) as [data|]; [|reflexivity].
  destruct (identify codec data) as [[m sz]|]; [|reflexivity].
  destruct (decode codec data); reflexivity.
Qed.

Lemma fs_load_image_files path channels w :
  w_files (FileSystemReader.load_image codec self path channels w).2
  = w_files w.
Proof.
  rewrite fs_load_image_run. cbv zeta.
  destruct (w_files w _) as [data|]; [|reflexivity].
  destruct (identify codec data) as [[m sz]|]; [|reflexivity].
  destruct (decode codec data); reflexivity.
Qed.

(** The loop body for a kept row whose column holds the text [name]:
    either re-basing fails, and nothing else happens, or the image is
    loaded from the re-based path. *)
Lemma fs_load_signal_run (csv_path column : string) (channels : Z)
    (row : Row) (name : string) (w : world) :
  row !! Some column = Some (csv.Str name) ->
  FileSystemReader.load_signal codec self csv_path column channels row w =
  match pathlib.relative_to
          (pathlib.div
             (pathlib.parent
                (pathlib.div (FileSystemReader.root_path self) csv_path))
             name)
          (FileSystemReader.root_path self) with
  | Ok rel =>
      FileSystemReader.load_image codec self (pathlib.to_str rel) channels w
  | Raise e => (Raise e, w)
  end.
Proof.
  intros Hrow. unfold FileSystemReader.load_signal, dict_getitem.
  rewrite Hrow. unfold bind, lift; simpl.
  destruct (pathlib.relative_to _ _); reflexivity.
Qed.

End FsSignals.

(** C4. In the filesystem reader, the value [name] of a kept row is joined
    to the directory of the CSV file under the root, re-based on the root,
    and the image is loaded from the re-based path, which resolves under
    the root to the joined path again: that is the one file opened.  For
    the CSV file [sub/data.csv] and the value [masks/a.png] the file
    opened is [sub/masks/a.png] under the root. *)
Theorem fs_signal_path_rebased (codec : Codec) (self : FileSystemReader.t)
    (csv_path column : string) (channels : Z) (row : Row) (name : string)
    (w : world) :
  row !! Some column = Some (csv.Str name) ->
  let R := FileSystemReader.root_path self in
  let joined := pathlib.div (pathlib.parent (pathlib.div R csv_path)) name in
  (forall rel,
     pathlib.relative_to joined R = Ok rel ->
     pathlib.div R (pathlib.to_str rel) = joined /\
     FileSystemReader.load_signal codec self csv_path column channels row w
     = FileSystemReader.load_image codec self (pathlib.to_str rel) channels w /\
     w_opened
       (FileSystemReader.load_signal codec self csv_path column channels row w).2
     = w_opened w ++ [joined])
  /\ (csv_path = "sub/data.csv" -> name = "masks/a.png" ->
      w_opened
        (FileSystemReader.load_signal codec self csv_path column channels row w).2
      = w_opened w ++
          [{| pathlib.root := pathlib.root R;
              pathlib.parts := pathlib.parts R ++ ["sub"; "masks"; "a.png"] |}]).
Proof.
  intros Hrow R joined.
  assert (forall rel,
     pathlib.relative_to joined R = Ok rel ->
     pathlib.div R (pathlib.to_str rel) = joined /\
     FileSystemReader.load_signal codec self csv_path column channels row w
     = FileSystemReader.load_image codec self (pathlib.to_str rel) channels w /\
     w_opened
       (FileSystemReader.load_signal codec self csv_path column channels row w).2
     = w_opened w ++ [joined]) as General.
  { intros rel Hrel.
    assert (pathlib.div R (pathlib.to_str rel) = joined) as Hback.
    { apply pathlib_facts.relative_to_div; [exact Hrel|].
      exact (pathlib_facts.signal_rel_wf R csv_path name rel Hrel). }
    rewrite (fs_load_signal_run codec self csv_path column channels row name w Hrow).
    fold R. fold joined. rewrite Hrel.
    split; [exact Hback|]. split; [reflexivity|].
    rewrite fs_load_image_opens. fold R. now rewrite Hback. }
  split; [exact General|].
  intros -> ->.
  assert (joined = {| pathlib.root := pathlib.root R;
                      pathlib.parts := pathlib.parts R ++ ["sub"; "masks"; "a.png"] |})
    as Hjoined.
  { unfold joined, pathlib.div, pathlib.join, pathlib.parent; simpl.
    rewrite removelast_app by discriminate. simpl.
    now rewrite <- app_assoc. }
  assert (pathlib.relative_to joined R
          = Ok {| pathlib.root := pathlib.Rel;
                  pathlib.parts := ["sub"; "masks"; "a.png"] |}) as Hrel.
  { rewrite Hjoined. unfold pathlib.relative_to, pathlib.is_relative_to; simpl.
    rewrite pathlib_facts.anchor_eqb_refl, pathlib_facts.is_prefix_app_refl.
    simpl. now rewrite drop_app_length. }
  destruct (General _ Hrel) as (_ & _ & Hopen).
  now rewrite Hopen, Hjoined.
Qed.

Lemma fs_signal_path_rebased_witness :
  w_opened
    (FileSystemReader.load_signal Samples.codec Samples.fs "sub/data.csv"
       "seg_map" 1 Samples.row_a Samples.w0).2
  = [pathlib.of_str "/data/sub/masks/a.png"].
Proof.
  exact (proj2 (fs_signal_path_rebased Samples.codec Samples.fs "sub/data.csv"
                  "seg_map" 1 Samples.row_a "masks/a.png" Samples.w0 eq_refl)
               eq_refl eq_refl).
Defined.

(** ** The loop over the rows *)

Lemma skips_run (spec : option Specifier) (row : Row) (w : world) :
  skips spec row w = (Ok (negb (keeps spec row)), w).
Proof.
  destruct spec as [spec|]; [|reflexivity].
  unfold skips, keeps, data_specifier_matches_entry, bind, lift.
  destruct (matches_items_total row (map_to_list spec)) as [b ->].
  reflexivity.
Qed.

Section Loop.
Context (spec : option Specifier) (load : Row -> M PIL.Image).

(** One turn of the loop of either reader. *)
Lemma loop_cons (row : Row) (rows : list Row) acc w :
  for_each
    (fun row signals =>
       skip <- skips spec row ;;
       if skip then ret signals
       else signal <- load row ;; ret (signals ++ [signal]))
    (row :: rows) acc w
  = if keeps spec row then
      match load row w with
      | (Ok im, w') =>
          for_each
            (fun row signals =>
               skip <- skips spec row ;;
               if skip then ret signals
               else signal <- load row ;; ret (signals ++ [signal]))
            rows (acc ++ [im]) w'
      | (Raise e, w') => (Raise e, w')
      end
    else
      for_each
        (fun row signals =>
           skip <- skips spec row ;;
           if skip then ret signals
           else signal <- load row ;; ret (signals ++ [signal]))
        rows acc w.
Proof.
  simpl. unfold bind at 1. unfold bind at 1. rewrite skips_run.
  destruct (keeps spec row); simpl; [|reflexivity].
  unfold bind at 1. destruct (load row w) as [[im|e] w']; reflexivity.
Qed.

(** A load changes no file, and what it returns depends on the files
    only. *)
Hypothesis load_files : forall row w, w_files (load row w).2 = w_files w.
Hypothesis load_result :
  forall row w w', w_files w = w_files w' -> (load row w).1 = (load row w').1.

(** When every kept row loads, the loop returns one image per kept row,
    in the order of the rows. *)
Lemma loop_all_loaded (w0 : world) (rows : list Row) :
  (forall row, row ∈ List.filter (keeps spec) rows ->
               is_Ok (load row w0).1 = true) ->
  forall acc w, w_files w = w_files w0 ->
  exists imgs w',
    for_each
      (fun row signals =>
         skip <- skips spec row ;;
         if skip then ret signals
         else signal <- load row ;; ret (signals ++ [signal]))
      rows acc w = (Ok (acc ++ imgs), w')
    /\ w_files w' = w_files w0
    /\ Forall2 (fun row im => (load row w0).1 = Ok im)
         (List.filter (keeps spec) rows) imgs.
Proof.
  induction rows as [|row rows IH]; intros Hall acc w Hw.
  - exists [], w. rewrite app_nil_r. repeat split; [assumption | constructor].
  - rewrite loop_cons. simpl in Hall |- *.
    destruct (keeps spec row) eqn:K.
    + assert (is_Ok (load row w0).1 = true) as Hok
        by (apply Hall; left).
      pose proof (load_result row w w0 Hw) as Hres.
      pose proof (load_files row w) as Hfiles.
      destruct (load row w) as [[im|e] w1] eqn:E; simpl in Hres, Hfiles.
      * destruct (IH (fun r Hr => Hall r (list_elem_of_further _ _ _ Hr))
                    (acc ++ [im]) w1 ltac:(congruence))
          as (imgs & w' & Hrun & Hw' & Himgs).
        exists (im :: imgs), w'. rewrite Hrun, <- app_assoc.
        repeat split; [assumption|]. constructor; [now symmetry | assumption].
      * rewrite <- Hres in Hok. discriminate.
    + apply IH; assumption.
Qed.

End Loop.

(** ** Loading a signal changes no file and depends on the files only *)

Section Frames.
Context (codec : Codec).

Lemma fs_load_image_result (self : FileSystemReader.t) path channels w w' :
  w_files w = w_files w' ->
  (FileSystemReader.load_image codec self path channels w).1
  = (FileSystemReader.load_image codec self path channels w').1.
Proof.
  intros H. rewrite !fs_load_image_run. cbv zeta. rewrite H.
  destruct (w_files w' _) as [data|]; [|reflexivity].
  destruct (identify codec data) as [[m sz]|]; [|reflexivity].
  destruct (decode codec data); reflexivity.
Qed.

Lemma lmdb_load_image_result (self : LMDBFileStorageReader.t) path
    channels w w' :
  (LMDBFileStorageReader.load_image codec self path channels w).1
  = (LMDBFileStorageReader.load_image codec self path channels w').1.
Proof.
  rewrite !lmdb_load_image_run.
  destruct (filestorage.blobs _ !! path) as [data|]; [|reflexivity].
  cbv zeta. destruct (identify codec data) as [[m sz]|]; [|reflexivity].
  destruct (decode codec data); reflexivity.
Qed.

Lemma lmdb_load_image_files (self : LMDBFileStorageReader.t) path
    channels w :
  w_files (LMDBFileStorageReader.load_image codec self path channels w).2
  = w_files w.
Proof.
  rewrite lmdb_load_image_run.
  destruct (filestorage.blobs _ !! path) as [data|]; [|reflexivity].
  cbv zeta. destruct (identify codec data) as [[m sz]|]; [|reflexivity].
  destruct (decode codec data); reflexivity.
Qed.

Lemma load_signal_files (r : reader) (csv_path column : string)
    (channels : Z) (row : Row) (w : world) :
  w_files (Reader.load_signal codec r csv_path column channels row w).2
  = w_files w.
Proof.
  destruct r as [r|r]; simpl.
  - unfold FileSystemReader.load_signal, bind, lift.
    destruct (dict_getitem row column) as [v|]; [|reflexivity].
    destruct (path_segment v) as [name|]; [|reflexivity].
    destruct (pathlib.relative_to _ _) as [rel|]; [|reflexivity].
    apply fs_load_image_files.
  - unfold LMDBFileStorageReader.load_signal, bind, lift.
    destruct (dict_getitem row column) as [v|]; [|reflexivity].
    destruct (path_segment v) as [name|]; [|reflexivity].
    apply lmdb_load_image_files.
Qed.

Lemma load_signal_result (r : reader) (csv_path column : string)
    (channels : Z) (row : Row) (w w' : world) :
  w_files w = w_files w' ->
  (Reader.load_signal codec r csv_path column channels row w).1
  = (Reader.load_signal codec r csv_path column channels row w').1.
Proof.
  intros H. destruct r as [r|r]; simpl.
  - unfold FileSystemReader.load_signal, bind, lift.
    destruct (dict_getitem row column) as [v|]; [|reflexivity].
    destruct (path_segment v) as [name|]; [|reflexivity].
    destruct (pathlib.relative_to _ _) as [rel|]; [|reflexivity].
    now apply fs_load_image_result.
  - unfold LMDBFileStorageReader.load_signal, bind, lift.
    destruct (dict_getitem row column) as [v|]; [|reflexivity].
    destruct (path_segment v) as [name|]; [|reflexivity].
    apply lmdb_load_image_result.
Qed.

End Frames.

(** C3. For either reader: when the CSV file parses to the rows [rows]
    and the image of every row the specifier keeps (every row when no
    specifier is given) loads, [load_signals_from_csv] returns exactly one
    image per kept row, the image of that row, in the order of the rows in
    the file. *)
Theorem load_signals_from_csv_kept_rows (codec : Codec) (r : reader)
    (csv_path column : string) (channels : Z) (spec : option Specifier)
    (w : world) (rows : list Row) (w1 : world) :
  Reader.read_csv_file r csv_path w = (Ok rows, w1) ->
  (forall row, row ∈ List.filter (keeps spec) rows ->
     is_Ok (Reader.load_signal codec r csv_path column channels row w1).1
     = true) ->
  exists imgs w2,
    Reader.load_signals_from_csv codec r csv_path column channels spec w
    = (Ok imgs, w2)
    /\ length imgs = length (List.filter (keeps spec) rows)
    /\ Forall2
         (fun row im =>
            (Reader.load_signal codec r csv_path column channels row w1).1
            = Ok im)
         (List.filter (keeps spec) rows) imgs.
Proof.
  intros Hcsv Hall.
  destruct (loop_all_loaded spec
              (Reader.load_signal codec r csv_path column channels)
              (load_signal_files codec r csv_path column channels)
              (load_signal_result codec r csv_path column channels)
              w1 rows Hall [] w1 eq_refl)
    as (imgs & w2 & Hrun & _ & Himgs).
  exists imgs, w2. split; [|split].
  - destruct r as [r|r]; simpl in *.
    + unfold FileSystemReader.load_signals_from_csv.
      rewrite (bind_ok _ _ _ _ _ Hcsv). exact Hrun.
    + unfold LMDBFileStorageReader.load_signals_from_csv.
      rewrite (bind_ok _ _ _ _ _ Hcsv). exact Hrun.
  - symmetry. exact (Forall2_length _ _ _ Himgs).
  - exact Himgs.
Qed.

Lemma load_signals_from_csv_kept_rows_witness :
  exists imgs w2,
    Reader.load_signals_from_csv Samples.codec (FileSystem Samples.fs)
      "sub/data.csv" "seg_map" 1 (Samples.class_is "0") Samples.w0
    = (Ok imgs, w2)
    /\ length imgs
       = length (List.filter (keeps (Samples.class_is "0")) Samples.rows)
    /\ Forall2
         (fun row im =>
            (Reader.load_signal Samples.codec (FileSystem Samples.fs)
               "sub/data.csv" "seg_map" 1 row
               (log_open (pathlib.of_str "/data/sub/data.csv") Samples.w0)).1
            = Ok im)
         (List.filter (keeps (Samples.class_is "0")) Samples.rows) imgs.
Proof.
  apply (load_signals_from_csv_kept_rows Samples.codec (FileSystem Samples.fs)
           "sub/data.csv" "seg_map" 1 (Samples.class_is "0") Samples.w0
           Samples.rows).
  - reflexivity.
  - intros row Hin.
    change (List.filter (keeps (Samples.class_is "0")) Samples.rows)
      with [Samples.row_b] in Hin.
    apply list_elem_of_singleton in Hin. subst row. reflexivity.
Defined.

(** ** Re-basing failures in the filesystem reader *)

(** A relative value, for a CSV file at a relative path with at least one
    component, always re-bases: no [..] in it can make [relative_to]
    fail. *)
Lemma fs_relative_value_rebases (r : pathlib.Path) (csv_path name : string) :
  pathlib.root (pathlib.of_str csv_path) = pathlib.Rel ->
  pathlib.parts (pathlib.of_str csv_path) <> [] ->
  pathlib.root (pathlib.of_str name) = pathlib.Rel ->
  pathlib.is_relative_to
    (pathlib.div (pathlib.parent (pathlib.div r csv_path)) name) r = true.
Proof.
  intros Hc Hparts Hn.
  unfold pathlib.div, pathlib.join, pathlib.parent, pathlib.is_relative_to.
  rewrite Hn, Hc. simpl pathlib.root. simpl pathlib.parts.
  rewrite removelast_app by assumption. rewrite <- app_assoc.
  now rewrite pathlib_facts.anchor_eqb_refl, pathlib_facts.is_prefix_app_refl.
Qed.

(** An absolute value that lies under the root is re-based and its image
    loaded; a relative value that climbs out of the root with [..] is
    re-based as well, since [relative_to] compares components without
    resolving [..], and the reader goes on to open the file, here failing
    with [FileNotFoundError]. *)
Lemma fs_rebasing_counterexample :
  (pathlib.is_absolute (pathlib.of_str "/data/m/a.png") = true
   /\ FileSystemReader.load_signals_from_csv Samples.codec Samples.fs
        "sub/abs.csv" "seg_map" 1 None Samples.w0
      = (Ok [converted Samples.codec 1 "P" (2, 1)%Z [97; 98]%Z],
         log_open (pathlib.of_str "/data/m/a.png")
           (log_open (pathlib.of_str "/data/sub/abs.csv") Samples.w0)))
  /\ (pathlib.is_relative_to
        (pathlib.normpath
           (pathlib.div
              (pathlib.parent
                 (pathlib.div (FileSystemReader.root_path Samples.fs)
                    "sub/up.csv"))
              "../../x.png"))
        (FileSystemReader.root_path Samples.fs) = false
      /\ (FileSystemReader.load_signals_from_csv Samples.codec Samples.fs
            "sub/up.csv" "seg_map" 1 None Samples.w0).1
         = Raise FileNotFoundError
      /\ w_opened
           (FileSystemReader.load_signals_from_csv Samples.codec Samples.fs
              "sub/up.csv" "seg_map" 1 None Samples.w0).2
         = [pathlib.of_str "/data/sub/up.csv";
            pathlib.of_str "/data/sub/../../x.png"]).
Proof. repeat split. Qed.

(** C10, amended. In the filesystem reader, when the value of a kept row,
    joined to the directory of the CSV file under the root (an absolute
    value is the joined path itself), is not lexically under the root,
    the call fails with the [ValueError] of [relative_to], which is
    neither of the [NotFound] nor of the [DecodeError] kind, in the world
    the earlier rows left: nothing is opened for this row. *)
Theorem fs_rebasing_failure (codec : Codec) (self : FileSystemReader.t)
    (csv_path column : string) (channels : Z) (spec : option Specifier)
    (w w1 w2 : world) (pre post : list Row) (row : Row) (name : string)
    (acc : list PIL.Image) :
  FileSystemReader.read_csv_file self csv_path w
  = (Ok (pre ++ row :: post), w1) ->
  FileSystemReader.signals_loop codec self csv_path column channels spec
    pre [] w1 = (Ok acc, w2) ->
  keeps spec row = true ->
  row !! Some column = Some (csv.Str name) ->
  pathlib.is_relative_to
    (pathlib.div
       (pathlib.parent
          (pathlib.div (FileSystemReader.root_path self) csv_path))
       name)
    (FileSystemReader.root_path self) = false ->
  FileSystemReader.load_signals_from_csv codec self csv_path column channels
    spec w = (Raise ValueError, w2)
  /\ is_NotFound ValueError = false
  /\ is_DecodeError ValueError = false.
Proof.
  intros Hcsv Hpre Hkeep Hrow Hout. split; [|split; reflexivity].
  unfold FileSystemReader.load_signals_from_csv.
  rewrite (bind_ok _ _ _ _ _ Hcsv).
  unfold FileSystemReader.signals_loop in *.
  rewrite for_each_app, Hpre.
  rewrite (loop_cons spec
             (FileSystemReader.load_signal codec self csv_path column channels)).
  rewrite Hkeep.
  rewrite (fs_load_signal_run codec self csv_path column channels row name w2 Hrow).
  unfold pathlib.relative_to. now rewrite Hout.
Qed.

Lemma fs_rebasing_failure_witness :
  FileSystemReader.load_signals_from_csv Samples.codec Samples.fs
    "sub/out.csv" "seg_map" 1 None Samples.w0
  = (Raise ValueError,
     log_open (pathlib.of_str "/data/sub/masks/a.png")
       (log_open (pathlib.of_str "/data/sub/out.csv") Samples.w0))
  /\ is_NotFound ValueError = false
  /\ is_DecodeError ValueError = false.
Proof.
  apply (fs_rebasing_failure Samples.codec Samples.fs "sub/out.csv" "seg_map"
           1 None Samples.w0
           (log_open (pathlib.of_str "/data/sub/out.csv") Samples.w0)
           (log_open (pathlib.of_str "/data/sub/masks/a.png")
              (log_open (pathlib.of_str "/data/sub/out.csv") Samples.w0))
           [Samples.row_a] [] (Samples.row_of "/elsewhere/a.png" "0")
           "/elsewhere/a.png"
           [converted Samples.codec 1 "P" (2, 1)%Z [97; 98]%Z]);
    reflexivity.
Defined.

(** ** Reading a CSV file *)

(** What [read_csv_file] returns, for either reader. *)
Lemma read_csv_file_run (r : reader) (path : string) (w : world) :
  exists w',
    Reader.read_csv_file r path w
    = (match Reader.resource r w path with
       | None => Raise FileNotFoundError
       | Some data => csv.DictReader (Reader.text_lines r data)
       end, w').
Proof.
  destruct r as [r|r]; simpl.
  - unfold FileSystemReader.read_csv_file, bind, os_open, lift.
    destruct (w_files w _) as [data|]; eauto.
  - unfold LMDBFileStorageReader.read_csv_file, filestorage.open_file.
    unfold bind at 1.
    destruct (filestorage.blobs _ !! path) as [data|]; [|eauto].
    unfold bind at 1. rewrite stream_read_fresh by reflexivity.
    unfold lift. eauto.
Qed.

(** An empty file, and a file whose rows are shorter or longer than its
    header, are read without error by both readers: the empty file gives
    no row; a short row has [None] for its missing cell, a long row its
    surplus cells under the key [None]. *)
Lemma read_csv_file_counterexample :
  (FileSystemReader.read_csv_file Samples.fs "empty.csv" Samples.w0).1 = Ok []
  /\ (LMDBFileStorageReader.read_csv_file Samples.lmdb "empty.csv"
        Samples.w0).1 = Ok []
  /\ (FileSystemReader.read_csv_file Samples.fs "sub/ragged.csv"
        Samples.w0).1
     = Ok [csv.make_row ["seg_map"; "class"] ["masks/a.png"];
           csv.make_row ["seg_map"; "class"] ["masks/b.png"; "0"; "x"]]
  /\ (LMDBFileStorageReader.read_csv_file Samples.lmdb "sub/ragged.csv"
        Samples.w0).1
     = Ok [csv.make_row ["seg_map"; "class"] ["masks/a.png"];
           csv.make_row ["seg_map"; "class"] ["masks/b.png"; "0"; "x"]]
  /\ csv.make_row ["seg_map"; "class"] ["masks/a.png"] !! Some "class"
     = Some csv.NoneCell
  /\ csv.make_row ["seg_map"; "class"] ["masks/b.png"; "0"; "x"] !! None
     = Some (csv.Rest ["x"]).
Proof. repeat split. Qed.

(** A short record has [None] for every field it does not reach. *)
Lemma fold_insert_None (ks : list string) (d : Row) (k : string) :
  k ∈ ks \/ d !! Some k = Some csv.NoneCell ->
  fold_left (fun d k => <[Some k := csv.NoneCell]> d) ks d !! Some k
  = Some csv.NoneCell.
Proof.
  revert d. induction ks as [|a ks IH]; intros d H; simpl.
  - destruct H as [H|H]; [inversion H | exact H].
  - apply IH. destruct (decide (a = k)) as [->|Hne].
    + right. apply lookup_insert_eq.
    + destruct H as [H|H].
      * apply elem_of_cons in H as [->|H]; [congruence | now left].
      * right. rewrite lookup_insert_ne by congruence. exact H.
Qed.

Lemma make_row_short (fieldnames rec : list string) (k : string) :
  length rec < length fieldnames ->
  k ∈ drop (length rec) fieldnames ->
  csv.make_row fieldnames rec !! Some k = Some csv.NoneCell.
Proof.
  intros Hlen Hk. unfold csv.make_row.
  destruct (length fieldnames <? length rec)%nat eqn:E1;
    [apply Nat.ltb_lt in E1; lia|].
  destruct (length rec <? length fieldnames)%nat eqn:E2;
    [|apply Nat.ltb_ge in E2; lia].
  apply fold_insert_None. now left.
Qed.

(** A long record keeps its surplus cells under the key [None]. *)
Lemma make_row_long (fieldnames rec : list string) :
  length fieldnames < length rec ->
  csv.make_row fieldnames rec !! None
  = Some (csv.Rest (drop (length fieldnames) rec)).
Proof.
  intros Hlen. unfold csv.make_row.
  destruct (length fieldnames <? length rec)%nat eqn:E1;
    [|apply Nat.ltb_ge in E1; lia].
  apply lookup_insert_eq.
Qed.

(** C6, amended. For either reader, [read_csv_file] fails with an error of
    the [NotFound] kind when the backend holds nothing at the path.  When
    the resource is empty, so that there is no header row, the call
    returns the empty sequence; and whenever the tokenizer splits the
    text into records, the call returns one row for each non-blank record
    after the first, whatever the number of cells of the record: a short
    record has [None] for the fields it does not reach, a long record its
    surplus cells under the key [None]. *)
Theorem read_csv_file_outcomes (r : reader) (path : string) (w : world) :
  (Reader.resource r w path = None ->
   exists e w',
     Reader.read_csv_file r path w = (Raise e, w') /\ is_NotFound e = true)
  /\ (Reader.resource r w path = Some "" ->
      exists w', Reader.read_csv_file r path w = (Ok [], w'))
  /\ (forall data fieldnames records,
        Reader.resource r w path = Some data ->
        csv.reader (Reader.text_lines r data) = Ok (fieldnames :: records) ->
        exists w',
          Reader.read_csv_file r path w
          = (Ok (map (csv.make_row fieldnames)
                   (List.filter (fun rec => negb (csv.is_nil rec)) records)),
             w'))
  /\ (forall (fieldnames rec : list string) (k : string),
        length rec < length fieldnames ->
        k ∈ drop (length rec) fieldnames ->
        csv.make_row fieldnames rec !! Some k = Some csv.NoneCell)
  /\ (forall fieldnames rec : list string,
        length fieldnames < length rec ->
        csv.make_row fieldnames rec !! None
        = Some (csv.Rest (drop (length fieldnames) rec))).
Proof.
  destruct (read_csv_file_run r path w) as [w' Hrun]. rewrite Hrun.
  split; [|split; [|split; [|split]]].
  - intros ->. exists FileNotFoundError, w'. split; reflexivity.
  - intros ->. exists w'. now destruct r.
  - intros data fieldnames records -> Hrec. exists w'.
    unfold csv.DictReader. now rewrite Hrec.
  - exact make_row_short.
  - exact make_row_long.
Qed.

Lemma read_csv_file_outcomes_witness :
  (exists e w',
     Reader.read_csv_file (FileSystem Samples.fs) "nowhere.csv" Samples.w0
     = (Raise e, w') /\ is_NotFound e = true)
  /\ (exists w',
        Reader.read_csv_file (LMDB Samples.lmdb) "empty.csv" Samples.w0
        = (Ok [], w'))
  /\ (exists w',
        Reader.read_csv_file (LMDB Samples.lmdb) "sub/ragged.csv" Samples.w0
        = (Ok (map (csv.make_row ["seg_map"; "class"])
                 (List.filter (fun rec => negb (csv.is_nil rec))
                    [["masks/a.png"]; ["masks/b.png"; "0"; "x"]])),
           w'))
  /\ csv.make_row ["seg_map"; "class"] ["masks/a.png"] !! Some "class"
     = Some csv.NoneCell
  /\ csv.make_row ["seg_map"; "class"] ["masks/b.png"; "0"; "x"] !! None
     = Some (csv.Rest (drop 2 ["masks/b.png"; "0"; "x"])).
Proof.
  pose proof (read_csv_file_outcomes (FileSystem Samples.fs)
                "nowhere.csv" Samples.w0) as (Hmissing & _).
  pose proof (read_csv_file_outcomes (LMDB Samples.lmdb)
                "empty.csv" Samples.w0) as (_ & Hempty & _).
  pose proof (read_csv_file_outcomes (LMDB Samples.lmdb)
                "sub/ragged.csv" Samples.w0)
    as (_ & _ & Hragged & Hshort & Hlong).
  split; [|split; [|split; [|split]]].
  - apply Hmissing. reflexivity.
  - apply Hempty. reflexivity.
  - apply (Hragged (Samples.manifest_of ["masks/a.png"; "masks/b.png,0,x"]));
      reflexivity.
  - apply (Hshort ["seg_map"; "class"] ["masks/a.png"] "class").
    + simpl. lia.
    + simpl. apply list_elem_of_here.
  - apply (Hlong ["seg_map"; "class"] ["masks/b.png"; "0"; "x"]). simpl. lia.
Defined.

(** * Further properties of the readers *)

(** ** The loop, once more *)

Lemma for_each_ext {A B} (f g : A -> list B -> M (list B)) (l : list A) :
  (forall a acc w, f a acc w = g a acc w) ->
  forall acc w, for_each f l acc w = for_each g l acc w.
Proof.
  intros Hfg. induction l as [|a l IH]; intros acc w; simpl; [reflexivity|].
  unfold bind. rewrite Hfg. destruct (g a acc w) as [[acc'|e] w']; auto.
Qed.

Lemma load_signals_from_csv_unfold (codec : Codec) (r : reader)
    (csv_path column : string) (channels : Z) (spec : option Specifier)
    (w : world) :
  Reader.load_signals_from_csv codec r csv_path column channels spec w
  = bind (Reader.read_csv_file r csv_path)
      (fun rows =>
         for_each
           (signal_loop_body spec
              (Reader.load_signal codec r csv_path column channels))
           rows [])
      w.
Proof. destruct r; reflexivity. Qed.

Lemma keeps_empty (row : Row) : keeps (Some ∅) row = true.
Proof.
  unfold keeps, data_specifier_matches_entry. now rewrite map_to_list_empty.
Qed.

Section LoopFacts.
Context (spec : option Specifier) (load : Row -> M PIL.Image).

Lemma body_cons (row : Row) (rows : list Row) acc w :
  for_each (signal_loop_body spec load) (row :: rows) acc w
  = if keeps spec row then
      match load row w with
      | (Ok im, w') =>
          for_each (signal_loop_body spec load) rows (acc ++ [im]) w'
      | (Raise e, w') => (Raise e, w')
      end
    else for_each (signal_loop_body spec load) rows acc w.
Proof. exact (loop_cons spec load row rows acc w). Qed.

Hypothesis load_files : forall row w, w_files (load row w).2 = w_files w.
Hypothesis load_result :
  forall row w w', w_files w = w_files w' -> (load row w).1 = (load row w').1.

(** The loop changes no file. *)
Lemma body_files (rows : list Row) acc w :
  w_files (for_each (signal_loop_body spec load) rows acc w).2 = w_files w.
Proof.
  revert acc w. induction rows as [|row rows IH]; intros acc w;
    [reflexivity|].
  rewrite body_cons. destruct (keeps spec row); [|apply IH].
  pose proof (load_files row w) as Hf.
  destruct (load row w) as [[im|e] w1]; simpl in Hf.
  - rewrite IH. exact Hf.
  - exact Hf.
Qed.

(** When the loop returns, every kept row has loaded, and the images are
    those of the kept rows, in their order, after the accumulator. *)
Lemma body_ok_inv (w0 : world) (rows : list Row) acc w out w' :
  w_files w = w_files w0 ->
  for_each (signal_loop_body spec load) rows acc w = (Ok out, w') ->
  exists imgs,
    out = acc ++ imgs
    /\ Forall2 (fun row im => (load row w0).1 = Ok im)
         (List.filter (keeps spec) rows) imgs.
Proof.
  revert acc w. induction rows as [|row rows IH]; intros acc w Hw Hrun.
  - injection Hrun as <- <-. exists []. rewrite app_nil_r.
    split; [reflexivity | constructor].
  - rewrite body_cons in Hrun. simpl. destruct (keeps spec row).
    + pose proof (load_result row w w0 Hw) as Hres.
      pose proof (load_files row w) as Hf.
      destruct (load row w) as [[im|e] w1]; simpl in Hres, Hf;
        [|discriminate].
      destruct (IH (acc ++ [im]) w1 ltac:(congruence) Hrun)
        as (imgs & -> & Himgs).
      exists (im :: imgs). rewrite <- app_assoc.
      split; [reflexivity|]. constructor; [now symmetry | assumption].
    + exact (IH acc w Hw Hrun).
Qed.

(** The loop raises the error of the first kept row that does not load. *)
Lemma body_first_failure (w0 : world) (pre post : list Row) (row : Row)
    (e : exn) acc w :
  w_files w = w_files w0 ->
  (forall r, r ∈ List.filter (keeps spec) pre -> is_Ok (load r w0).1 = true) ->
  keeps spec row = true ->
  (load row w0).1 = Raise e ->
  (for_each (signal_loop_body spec load) (pre ++ row :: post) acc w).1
  = Raise e.
Proof.
  intros Hw Hpre Hkeep Hfail.
  destruct (loop_all_loaded spec load load_files load_result w0 pre Hpre
              acc w Hw) as (imgs & w1 & Hrun & Hw1 & _).
  rewrite for_each_app.
  change (for_each (signal_loop_body spec load) pre acc w) with
    (for_each
       (fun row signals =>
          skip <- skips spec row ;;
          if skip then ret signals
          else signal <- load row ;; ret (signals ++ [signal]))
       pre acc w).
  rewrite Hrun, body_cons, Hkeep.
  pose proof (load_result row w1 w0 Hw1) as Hres. rewrite Hfail in Hres.
  destruct (load row w1) as [[im|e'] w2]; simpl in Hres; [discriminate|].
  simpl. congruence.
Qed.

(** What the loop returns depends on the files only. *)
Lemma body_result_ext (rows : list Row) acc w w' :
  w_files w = w_files w' ->
  (for_each (signal_loop_body spec load) rows acc w).1
  = (for_each (signal_loop_body spec load) rows acc w').1.
Proof.
  revert acc w w'. induction rows as [|row rows IH]; intros acc w w' Hw;
    [reflexivity|].
  rewrite !body_cons. destruct (keeps spec row); [|now apply IH].
  pose proof (load_result row w w' Hw) as Hres.
  pose proof (load_files row w) as Hf. pose proof (load_files row w') as Hf'.
  destruct (load row w) as [[im|e] w1], (load row w') as [[im'|e'] w1'];
    simpl in Hres, Hf, Hf'; try discriminate.
  - injection Hres as <-. apply IH. congruence.
  - simpl. congruence.
Qed.

End LoopFacts.

(** ** Reads change no file and can be repeated *)

Lemma read_csv_file_files (r : reader) (path : string) (w : world) :
  w_files (Reader.read_csv_file r path w).2 = w_files w.
Proof.
  destruct r as [r|r]; simpl.
  - unfold FileSystemReader.read_csv_file, bind, os_open, lift.
    destruct (w_files w _); reflexivity.
  - unfold LMDBFileStorageReader.read_csv_file, filestorage.open_file.
    unfold bind at 1.
    destruct (filestorage.blobs _ !! path) as [data|]; [|reflexivity].
    unfold bind at 1. rewrite stream_read_fresh by reflexivity. reflexivity.
Qed.

Lemma read_csv_file_result (r : reader) (path : string) (w w' : world) :
  w_files w = w_files w' ->
  (Reader.read_csv_file r path w).1 = (Reader.read_csv_file r path w').1.
Proof.
  intros Hw.
  destruct (read_csv_file_run r path w) as [w1 ->].
  destruct (read_csv_file_run r path w') as [w1' ->].
  simpl. destruct r; simpl; [now rewrite Hw | reflexivity].
Qed.

(** X1. For either reader, [load_signals_from_csv] changes no file, and
    what it returns (the images, or the error) depends on the files and
    blobs only: not on the streams opened before, nor on what was printed
    or opened before.  A call can be repeated, after any other reads, with
    the same outcome. *)
Theorem load_signals_from_csv_repeatable (codec : Codec) (r : reader)
    (csv_path column : string) (channels : Z) (spec : option Specifier)
    (w w' : world) :
  w_files w = w_files w' ->
  (Reader.load_signals_from_csv codec r csv_path column channels spec w).1
  = (Reader.load_signals_from_csv codec r csv_path column channels spec w').1
  /\ w_files
       (Reader.load_signals_from_csv codec r csv_path column channels spec w).2
     = w_files w.
Proof.
  intros Hw. rewrite !load_signals_from_csv_unfold. unfold bind.
  pose proof (read_csv_file_result r csv_path w w' Hw) as Hres.
  pose proof (read_csv_file_files r csv_path w) as Hf.
  pose proof (read_csv_file_files r csv_path w') as Hf'.
  destruct (Reader.read_csv_file r csv_path w) as [[rows|e] w1],
    (Reader.read_csv_file r csv_path w') as [[rows'|e'] w1'];
    simpl in Hres, Hf, Hf'; try discriminate.
  - injection Hres as <-. split.
    + apply body_result_ext.
      * apply load_signal_files.
      * apply load_signal_result.
      * congruence.
    + rewrite body_files by apply load_signal_files. exact Hf.
  - split; [simpl; congruence | exact Hf].
Qed.

Lemma load_signals_from_csv_repeatable_witness :
  (Reader.load_signals_from_csv Samples.codec (LMDB Samples.lmdb)
     "sub/data.csv" "seg_map" 1 None Samples.w0).1
  = (Reader.load_signals_from_csv Samples.codec (LMDB Samples.lmdb)
       "sub/data.csv" "seg_map" 1 None
       (Reader.load_signals_from_csv Samples.codec (LMDB Samples.lmdb)
          "sub/data.csv" "seg_map" 3 None Samples.w0).2).1
  /\ w_files
       (Reader.load_signals_from_csv Samples.codec (LMDB Samples.lmdb)
          "sub/data.csv" "seg_map" 1 None Samples.w0).2
     = w_files Samples.w0.
Proof.
  apply (load_signals_from_csv_repeatable Samples.codec (LMDB Samples.lmdb)
           "sub/data.csv" "seg_map" 1 None Samples.w0).
  reflexivity.
Defined.

(** ** The specifier in the loop *)

(** X2. For either reader, an empty specifier is the same as no
    specifier: [load_signals_from_csv] does the same, and leaves the same
    world, with [data_specifier={}] as with [data_specifier=None]. *)
Theorem empty_specifier_is_no_specifier (codec : Codec) (r : reader)
    (csv_path column : string) (channels : Z) (w : world) :
  Reader.load_signals_from_csv codec r csv_path column channels (Some ∅) w
  = Reader.load_signals_from_csv codec r csv_path column channels None w.
Proof.
  rewrite !load_signals_from_csv_unfold. unfold bind.
  destruct (Reader.read_csv_file r csv_path w) as [[rows|e] w1];
    [|reflexivity].
  apply for_each_ext. intros row acc w2.
  unfold signal_loop_body, bind. rewrite !skips_run, keeps_empty.
  reflexivity.
Qed.

(** X3. For either reader, when [load_signals_from_csv] returns, every
    row the specifier keeps was loaded: the result has exactly one image
    per kept row, the image of that row, in the order of the rows.  No
    kept row is dropped from a successful result. *)
Theorem load_signals_from_csv_ok_inv (codec : Codec) (r : reader)
    (csv_path column : string) (channels : Z) (spec : option Specifier)
    (w w1 w2 : world) (rows : list Row) (imgs : list PIL.Image) :
  Reader.read_csv_file r csv_path w = (Ok rows, w1) ->
  Reader.load_signals_from_csv codec r csv_path column channels spec w
  = (Ok imgs, w2) ->
  length imgs = length (List.filter (keeps spec) rows)
  /\ Forall2
       (fun row im =>
          (Reader.load_signal codec r csv_path column channels row w1).1
          = Ok im)
       (List.filter (keeps spec) rows) imgs.
Proof.
  intros Hcsv Hrun. rewrite load_signals_from_csv_unfold in Hrun.
  rewrite (bind_ok _ _ _ _ _ Hcsv) in Hrun.
  destruct (body_ok_inv spec
              (Reader.load_signal codec r csv_path column channels)
              (load_signal_files codec r csv_path column channels)
              (load_signal_result codec r csv_path column channels)
              w1 rows [] w1 imgs w2 eq_refl Hrun)
    as (imgs' & Himgs & Hall).
  simpl in Himgs. subst imgs'.
  split; [symmetry; exact (Forall2_length _ _ _ Hall) | exact Hall].
Qed.

Lemma load_signals_from_csv_ok_inv_witness :
  length [converted Samples.codec 3 "P" (2, 1)%Z [97; 98]%Z]
  = length (List.filter (keeps (Samples.class_is "1")) Samples.rows)
  /\ Forall2
       (fun row im =>
          (Reader.load_signal Samples.codec (LMDB Samples.lmdb)
             "sub/data.csv" "seg_map" 3 row
             (push_stream (text_stream Samples.manifest) Samples.w0)).1
          = Ok im)
       (List.filter (keeps (Samples.class_is "1")) Samples.rows)
       [converted Samples.codec 3 "P" (2, 1)%Z [97; 98]%Z].
Proof.
  apply (load_signals_from_csv_ok_inv Samples.codec (LMDB Samples.lmdb)
           "sub/data.csv" "seg_map" 3 (Samples.class_is "1") Samples.w0
           (push_stream (text_stream Samples.manifest) Samples.w0)
           (close_at 1
              (push_stream (binary_stream Samples.image_bytes)
                 (push_stream (text_stream Samples.manifest) Samples.w0)))
           Samples.rows);
    reflexivity.
Defined.

(** X4. For either reader, [load_signals_from_csv] fails fast: when the
    rows before a kept row load (or are skipped) and the kept row does not
    load, the call raises the error of that row, whatever the rows after
    it; no partial result is returned. *)
Theorem load_signals_from_csv_first_failure (codec : Codec) (r : reader)
    (csv_path column : string) (channels : Z) (spec : option Specifier)
    (w w1 : world) (pre post : list Row) (row : Row) (e : exn) :
  Reader.read_csv_file r csv_path w = (Ok (pre ++ row :: post), w1) ->
  (forall r', r' ∈ List.filter (keeps spec) pre ->
     is_Ok (Reader.load_signal codec r csv_path column channels r' w1).1
     = true) ->
  keeps spec row = true ->
  (Reader.load_signal codec r csv_path column channels row w1).1 = Raise e ->
  (Reader.load_signals_from_csv codec r csv_path column channels spec w).1
  = Raise e.
Proof.
  intros Hcsv Hpre Hkeep Hfail. rewrite load_signals_from_csv_unfold.
  rewrite (bind_ok _ _ _ _ _ Hcsv).
  apply (body_first_failure spec
           (Reader.load_signal codec r csv_path column channels)
           (load_signal_files codec r csv_path column channels)
           (load_signal_result codec r csv_path column channels)
           w1); auto.
Qed.

Lemma load_signals_from_csv_first_failure_witness :
  (Reader.load_signals_from_csv Samples.codec (LMDB MoreSamples.lmdb)
     "sub/late.csv" "seg_map" 1 None Samples.w0).1
  = Raise FileNotFoundError.
Proof.
  apply (load_signals_from_csv_first_failure Samples.codec
           (LMDB MoreSamples.lmdb) "sub/late.csv" "seg_map" 1 None Samples.w0
           (push_stream
              (text_stream
                 (Samples.manifest_of
                    ["masks/a.png,1"; "gone.png,1"; "masks/b.png,1"]))
              Samples.w0)
           [Samples.row_a] [Samples.row_of "masks/b.png" "1"]
           (Samples.row_of "gone.png" "1")).
  - reflexivity.
  - intros r' Hin.
    change (List.filter (keeps None) [Samples.row_a])
      with [Samples.row_a] in Hin.
    apply list_elem_of_singleton in Hin. subst r'. reflexivity.
  - reflexivity.
  - reflexivity.
Defined.

(** ** The files the filesystem reader opens *)

Section FsTrace.
Context (codec : Codec) (self : FileSystemReader.t).

Lemma fs_read_csv_file_world (path : string) (w : world) :
  (FileSystemReader.read_csv_file self path w).2
  = log_open (pathlib.div (FileSystemReader.root_path self) path) w.
Proof.
  unfold FileSystemReader.read_csv_file, bind, os_open, lift.
  destruct (w_files w _); reflexivity.
Qed.

(** A row that loads holds text in the column, and the one file opened
    for it is the joined path. *)
Lemma fs_load_signal_ok_inv (csv_path column : string) (channels : Z)
    (row : Row) (w : world) (im : PIL.Image) (w' : world) :
  FileSystemReader.load_signal codec self csv_path column channels row w
  = (Ok im, w') ->
  exists name,
    row !! Some column = Some (csv.Str name)
    /\ w_opened w'
       = w_opened w ++
           [pathlib.div
              (pathlib.parent
                 (pathlib.div (FileSystemReader.root_path self) csv_path))
              name]
    /\ w_stdout w' = w_stdout w.
Proof.
  intros Hrun.
  assert (exists name, row !! Some column = Some (csv.Str name))
    as [name Hrow].
  { revert Hrun. unfold FileSystemReader.load_signal, dict_getitem.
    destruct (row !! Some column) as [[s| |l]|]; try discriminate. eauto. }
  exists name. split; [exact Hrow|].
  rewrite (fs_load_signal_run codec self csv_path column channels row name w
             Hrow) in Hrun.
  destruct (pathlib.relative_to _ _) as [rel|e] eqn:Hrel; [|discriminate].
  pose proof (pathlib_facts.relative_to_div _ _ _ Hrel
                (pathlib_facts.signal_rel_wf _ csv_path name rel Hrel))
    as Hback.
  rewrite fs_load_image_run in Hrun. cbv zeta in Hrun. rewrite Hback in Hrun.
  destruct (w_files w _) as [data|]; [|discriminate].
  destruct (identify codec data) as [[m sz]|]; [|discriminate].
  destruct (decode codec data); [|discriminate].
  injection Hrun as _ <-. split; reflexivity.
Qed.

Lemma fs_loop_opened (csv_path column : string) (channels : Z)
    (spec : option Specifier) (rows : list Row) acc w out w' :
  FileSystemReader.signals_loop codec self csv_path column channels spec
    rows acc w = (Ok out, w') ->
  exists paths,
    w_opened w' = w_opened w ++ paths
    /\ w_stdout w' = w_stdout w
    /\ Forall2
         (fun row p =>
            exists name,
              row !! Some column = Some (csv.Str name)
              /\ p = pathlib.div
                       (pathlib.parent
                          (pathlib.div (FileSystemReader.root_path self)
                             csv_path))
                       name)
         (List.filter (keeps spec) rows) paths.
Proof.
  unfold FileSystemReader.signals_loop.
  revert acc w. induction rows as [|row rows IH]; intros acc w Hrun.
  - injection Hrun as _ <-. exists []. rewrite app_nil_r.
    repeat split. constructor.
  - rewrite (loop_cons spec
               (FileSystemReader.load_signal codec self csv_path column
                  channels)) in Hrun.
    simpl. destruct (keeps spec row); [|exact (IH acc w Hrun)].
    destruct (FileSystemReader.load_signal codec self csv_path column
                channels row w) as [[im|e] w1] eqn:Hload; [|discriminate].
    apply fs_load_signal_ok_inv in Hload as (name & Hrow & Hopen & Hout).
    destruct (IH _ _ Hrun) as (paths & Hopen' & Hout' & Hall).
    eexists (_ :: paths). split; [|split].
    + rewrite Hopen', Hopen, <- app_assoc. reflexivity.
    + congruence.
    + constructor; [eauto | exact Hall].
Qed.

End FsTrace.

(** X5. When [load_signals_from_csv] of the filesystem reader returns,
    the files it has opened are the CSV file and then, for each kept row
    in order, the file the row's value names next to the CSV file; no
    file is opened for a row the specifier filters out, and nothing is
    printed. *)
Theorem fs_load_signals_from_csv_opened (codec : Codec)
    (self : FileSystemReader.t) (csv_path column : string) (channels : Z)
    (spec : option Specifier) (w w1 w2 : world) (rows : list Row)
    (imgs : list PIL.Image) :
  FileSystemReader.read_csv_file self csv_path w = (Ok rows, w1) ->
  FileSystemReader.load_signals_from_csv codec self csv_path column channels
    spec w = (Ok imgs, w2) ->
  exists paths,
    w_opened w2
    = w_opened w ++
        pathlib.div (FileSystemReader.root_path self) csv_path :: paths
    /\ w_stdout w2 = w_stdout w
    /\ Forall2
         (fun row p =>
            exists name,
              row !! Some column = Some (csv.Str name)
              /\ p = pathlib.div
                       (pathlib.parent
                          (pathlib.div (FileSystemReader.root_path self)
                             csv_path))
                       name)
         (List.filter (keeps spec) rows) paths.
Proof.
  intros Hcsv Hrun. unfold FileSystemReader.load_signals_from_csv in Hrun.
  rewrite (bind_ok _ _ _ _ _ Hcsv) in Hrun.
  destruct (fs_loop_opened codec self _ _ _ _ _ _ _ _ _ Hrun)
    as (paths & Hopen & Hout & Hall).
  pose proof (fs_read_csv_file_world self csv_path w) as Hw1.
  rewrite Hcsv in Hw1. simpl in Hw1. subst w1.
  exists paths. split; [|split; [exact Hout | exact Hall]].
  rewrite Hopen. simpl. now rewrite <- app_assoc.
Qed.

Lemma fs_load_signals_from_csv_opened_witness :
  exists paths,
    w_opened
      (log_open (pathlib.of_str "/data/sub/masks/b.png")
         (log_open (pathlib.of_str "/data/sub/data.csv") Samples.w0))
    = w_opened Samples.w0 ++
        pathlib.div (FileSystemReader.root_path Samples.fs) "sub/data.csv"
        :: paths
    /\ w_stdout
         (log_open (pathlib.of_str "/data/sub/masks/b.png")
            (log_open (pathlib.of_str "/data/sub/data.csv") Samples.w0))
       = w_stdout Samples.w0
    /\ Forall2
         (fun row p =>
            exists name,
              row !! Some "seg_map" = Some (csv.Str name)
              /\ p = pathlib.div
                       (pathlib.parent
                          (pathlib.div (FileSystemReader.root_path Samples.fs)
                             "sub/data.csv"))
                       name)
         (List.filter (keeps (Samples.class_is "0")) Samples.rows) paths.
Proof.
  apply (fs_load_signals_from_csv_opened Samples.codec Samples.fs
           "sub/data.csv" "seg_map" 1 (Samples.class_is "0") Samples.w0
           (log_open (pathlib.of_str "/data/sub/data.csv") Samples.w0)
           (log_open (pathlib.of_str "/data/sub/masks/b.png")
              (log_open (pathlib.of_str "/data/sub/data.csv") Samples.w0))
           Samples.rows
           [converted Samples.codec 1 "P" (2, 1)%Z [97; 98]%Z]);
    reflexivity.
Defined.

(** ** The streams the blob-store reader leaves behind *)

Section LmdbStreams.
Context (codec : Codec) (self : LMDBFileStorageReader.t).

Lemma close_at_push (s : stream) (w : world) :
  w_streams (close_at (length (w_streams w)) (push_stream s w))
  = w_streams w ++ [close_stream s].
Proof.
  unfold close_at, push_stream; simpl.
  replace (length (w_streams w)) with (length (w_streams w) + 0) at 1 by lia.
  now rewrite alter_app_r.
Qed.

Lemma lmdb_load_image_ok_streams path channels w im w' :
  LMDBFileStorageReader.load_image codec self path channels w = (Ok im, w') ->
  exists data,
    filestorage.blobs (LMDBFileStorageReader.storage self) !! path = Some data
    /\ w_streams w' = w_streams w ++ [close_stream (binary_stream data)].
Proof.
  rewrite lmdb_load_image_run.
  destruct (filestorage.blobs _ !! path) as [data|]; [|discriminate].
  cbv zeta. destruct (identify codec data) as [[m sz]|]; [|discriminate].
  destruct (decode codec data); [|discriminate].
  intros [= _ <-]. exists data. split; [reflexivity | apply close_at_push].
Qed.

Lemma lmdb_loop_streams (csv_path column : string) (channels : Z)
    (spec : option Specifier) (rows : list Row) acc w out w' :
  LMDBFileStorageReader.signals_loop codec self csv_path column channels spec
    rows acc w = (Ok out, w') ->
  exists closed,
    w_streams w' = w_streams w ++ closed
    /\ Forall (fun s => s_closed s = true) closed
    /\ length out = length acc + length closed.
Proof.
  unfold LMDBFileStorageReader.signals_loop.
  revert acc w. induction rows as [|row rows IH]; intros acc w Hrun.
  - injection Hrun as <- <-. exists []. rewrite app_nil_r.
    repeat split; [constructor | simpl; lia].
  - rewrite (loop_cons spec
               (LMDBFileStorageReader.load_signal codec self csv_path column
                  channels)) in Hrun.
    destruct (keeps spec row); [|exact (IH acc w Hrun)].
    destruct (LMDBFileStorageReader.load_signal codec self csv_path column
                channels row w) as [[im|e] w1] eqn:Hload; [|discriminate].
    assert (exists data,
              w_streams w1
              = w_streams w ++ [close_stream (binary_stream data)])
      as [data Hw1].
    { revert Hload. unfold LMDBFileStorageReader.load_signal, bind, lift.
      destruct (dict_getitem row column) as [v|]; [|discriminate].
      destruct (path_segment v) as [name|]; [|discriminate].
      intros Hload. apply lmdb_load_image_ok_streams in Hload
        as (data & _ & Hstreams). eauto. }
    destruct (IH _ _ Hrun) as (closed & Hstreams & Hclosed & Hlen).
    exists (close_stream (binary_stream data) :: closed). split; [|split].
    + rewrite Hstreams, Hw1, <- app_assoc. reflexivity.
    + constructor; [reflexivity | exact Hclosed].
    + rewrite Hlen, length_app. simpl. lia.
Qed.

End LmdbStreams.

(** X6. When [load_signals_from_csv] of the blob-store reader returns, it
    has touched none of the streams that existed before and has opened
    one stream for the CSV blob, which it leaves open, followed by one
    stream per image returned, each of them closed. *)
Theorem lmdb_load_signals_from_csv_streams (codec : Codec)
    (self : LMDBFileStorageReader.t) (csv_path column : string)
    (channels : Z) (spec : option Specifier) (w w' : world)
    (imgs : list PIL.Image) :
  LMDBFileStorageReader.load_signals_from_csv codec self csv_path column
    channels spec w = (Ok imgs, w') ->
  exists data closed,
    filestorage.blobs (LMDBFileStorageReader.storage self) !! csv_path
    = Some data
    /\ w_streams w' = w_streams w ++ text_stream data :: closed
    /\ Forall (fun s => s_closed s = true) closed
    /\ length closed = length imgs
    /\ stream_closed w' (length (w_streams w)) = false.
Proof.
  unfold LMDBFileStorageReader.load_signals_from_csv,
    LMDBFileStorageReader.read_csv_file, filestorage.open_file.
  unfold bind at 1. unfold bind at 1.
  destruct (filestorage.blobs _ !! csv_path) as [data|]; [|discriminate].
  fold (text_stream data).
  unfold bind at 1. rewrite stream_read_fresh by reflexivity.
  unfold lift. destruct (csv.DictReader _) as [rows|e]; [|discriminate].
  intros Hrun.
  destruct (lmdb_loop_streams codec self _ _ _ _ _ _ _ _ _ Hrun)
    as (closed & Hstreams & Hclosed & Hlen).
  exists data, closed. split; [reflexivity|].
  assert (w_streams w' = w_streams w ++ text_stream data :: closed) as Hw'.
  { rewrite Hstreams. simpl. now rewrite <- app_assoc. }
  split; [exact Hw'|]. split; [exact Hclosed|]. split; [simpl in Hlen; lia|].
  unfold stream_closed. rewrite Hw'.
  now rewrite list_lookup_middle by reflexivity.
Qed.

Lemma lmdb_load_signals_from_csv_streams_witness :
  exists data closed,
    filestorage.blobs (LMDBFileStorageReader.storage Samples.lmdb)
      !! "sub/data.csv" = Some data
    /\ w_streams
         (LMDBFileStorageReader.load_signals_from_csv Samples.codec
            Samples.lmdb "sub/data.csv" "seg_map" 1 None Samples.w0).2
       = w_streams Samples.w0 ++ text_stream data :: closed
    /\ Forall (fun s => s_closed s = true) closed
    /\ length closed
       = length [converted Samples.codec 1 "P" (2, 1)%Z [97; 98]%Z;
                 converted Samples.codec 1 "P" (2, 1)%Z [97; 98]%Z]
    /\ stream_closed
         (LMDBFileStorageReader.load_signals_from_csv Samples.codec
            Samples.lmdb "sub/data.csv" "seg_map" 1 None Samples.w0).2
         (length (w_streams Samples.w0)) = false.
Proof.
  apply (lmdb_load_signals_from_csv_streams Samples.codec Samples.lmdb
           "sub/data.csv" "seg_map" 1 None Samples.w0).
  reflexivity.
Defined.

(** ** A column that the header does not name *)

Lemma fold_insert_lookup_None (l : list (option string * csv.cell))
    (d : Row) (k : option string) :
  d !! k = None -> k ∉ map fst l ->
  fold_left (fun d kv => <[kv.1 := kv.2]> d) l d !! k = None.
Proof.
  revert d. induction l as [|[k' c] l IH]; intros d Hd Hk; simpl;
    [exact Hd|].
  apply IH.
  - rewrite lookup_insert_ne; [exact Hd|].
    intros ->. apply Hk. simpl. left.
  - intros Hin. apply Hk. simpl. now right.
Qed.

Lemma fold_insert_NoneCell_lookup_None (ks : list string) (d : Row)
    (k : string) :
  d !! Some k = None -> k ∉ ks ->
  fold_left (fun d k => <[Some k := csv.NoneCell]> d) ks d !! Some k = None.
Proof.
  revert d. induction ks as [|a ks IH]; intros d Hd Hk; simpl; [exact Hd|].
  apply IH.
  - rewrite lookup_insert_ne; [exact Hd|].
    intros [= ->]. apply Hk. left.
  - intros Hin. apply Hk. now right.
Qed.

(** A row has no entry for a column the header does not name. *)
Lemma make_row_lookup_None (fieldnames rec : list string) (column : string) :
  column ∉ fieldnames ->
  csv.make_row fieldnames rec !! Some column = None.
Proof.
  intros Hcol.
  assert (csv.dict_of_pairs (zip (map Some fieldnames) (map csv.Str rec))
            !! Some column = None) as Hd.
  { unfold csv.dict_of_pairs. apply fold_insert_lookup_None.
    - apply lookup_empty.
    - intros Hin. apply Hcol.
      apply list_elem_of_fmap in Hin as [[k c] [Hk Hin]]. simpl in Hk.
      apply elem_of_zip_l in Hin.
      apply list_elem_of_fmap in Hin as [x [Hx Hin]]. simpl in *. congruence. }
  unfold csv.make_row.
  destruct (length fieldnames <? length rec)%nat.
  - rewrite lookup_insert_ne by discriminate. exact Hd.
  - destruct (length rec <? length fieldnames)%nat; [|exact Hd].
    apply fold_insert_NoneCell_lookup_None; [exact Hd|].
    intros Hin. apply Hcol.
    rewrite <- (take_drop (length rec) fieldnames).
    apply elem_of_app. now right.
Qed.

Lemma load_signal_missing_column (codec : Codec) (r : reader)
    (csv_path column : string) (channels : Z) (row : Row) (w : world) :
  row !! Some column = None ->
  Reader.load_signal codec r csv_path column channels row w
  = (Raise KeyError, w).
Proof.
  intros Hrow. destruct r as [r|r]; simpl.
  - unfold FileSystemReader.load_signal, dict_getitem. now rewrite Hrow.
  - unfold LMDBFileStorageReader.load_signal, dict_getitem. now rewrite Hrow.
Qed.

Lemma loop_missing_column (codec : Codec) (r : reader)
    (csv_path column : string) (channels : Z) (spec : option Specifier)
    (rows : list Row) acc w :
  Forall (fun row : Row => row !! Some column = None) rows ->
  for_each
    (signal_loop_body spec
       (Reader.load_signal codec r csv_path column channels))
    rows acc w
  = (if csv.is_nil (List.filter (keeps spec) rows) then Ok acc
     else Raise KeyError, w).
Proof.
  induction 1 as [|row rows Hrow _ IH]; [reflexivity|].
  rewrite body_cons. simpl. destruct (keeps spec row); [|exact IH].
  now rewrite load_signal_missing_column.
Qed.

(** X7. For either reader, when the header of the CSV file does not name
    the column, the call raises [KeyError] as soon as one row is kept,
    having done nothing but read the CSV file; but when no row is kept
    (the file has no data row, or the specifier filters all of them out)
    the call returns the empty list and the missing column goes
    unnoticed. *)
Theorem load_signals_from_csv_missing_column (codec : Codec) (r : reader)
    (csv_path column : string) (channels : Z) (spec : option Specifier)
    (w : world) (data : string) (fieldnames : list string)
    (records : list (list string)) :
  Reader.resource r w csv_path = Some data ->
  csv.reader (Reader.text_lines r data) = Ok (fieldnames :: records) ->
  column ∉ fieldnames ->
  exists rows w1,
    Reader.read_csv_file r csv_path w = (Ok rows, w1)
    /\ Reader.load_signals_from_csv codec r csv_path column channels spec w
       = (if csv.is_nil (List.filter (keeps spec) rows) then Ok []
          else Raise KeyError, w1).
Proof.
  intros Hres Hrec Hcol.
  destruct (read_csv_file_run r csv_path w) as [w1 Hcsv].
  rewrite Hres in Hcsv. unfold csv.DictReader in Hcsv. rewrite Hrec in Hcsv.
  eexists _, w1. split; [exact Hcsv|].
  rewrite load_signals_from_csv_unfold, (bind_ok _ _ _ _ _ Hcsv).
  apply loop_missing_column. apply Forall_forall. intros row Hin.
  apply list_elem_of_fmap in Hin as [rec [-> _]].
  now apply make_row_lookup_None.
Qed.

Lemma load_signals_from_csv_missing_column_witness :
  exists rows w1,
    Reader.read_csv_file (FileSystem Samples.fs) "sub/nocolumn.csv"
      MoreSamples.w0 = (Ok rows, w1)
    /\ Reader.load_signals_from_csv Samples.codec (FileSystem Samples.fs)
         "sub/nocolumn.csv" "seg_map" 1 None MoreSamples.w0
       = (if csv.is_nil (List.filter (keeps None) rows) then Ok []
          else Raise KeyError, w1).
Proof.
  apply (load_signals_from_csv_missing_column Samples.codec
           (FileSystem Samples.fs) "sub/nocolumn.csv" "seg_map" 1 None
           MoreSamples.w0
           (String.append "image,class"
              (String.append Samples.nl
                 (String.append "masks/a.png,1" Samples.nl)))
           ["image"; "class"] [["masks/a.png"; "1"]]).
  - reflexivity.
  - reflexivity.
  - intros Hin. apply list_elem_of_In in Hin. simpl in Hin.
    destruct Hin as [H|[H|[]]]; discriminate.
Defined.

(** ** The two readers address a signal alike *)

(** X8. For a CSV file at a relative path with at least one component
    and a relative value, the root-relative path the filesystem reader
    hands to its [load_image], after joining under the root and re-basing,
    is the very key the blob-store reader hands to its own: the text of
    [Path(csv_path).parent / value]. *)
Theorem readers_agree_on_signal_path (codec : Codec)
    (fs : FileSystemReader.t) (lm : LMDBFileStorageReader.t)
    (csv_path column : string) (channels : Z) (row : Row) (name : string)
    (w w' : world) :
  row !! Some column = Some (csv.Str name) ->
  pathlib.root (pathlib.of_str csv_path) = pathlib.Rel ->
  pathlib.parts (pathlib.of_str csv_path) <> [] ->
  pathlib.root (pathlib.of_str name) = pathlib.Rel ->
  FileSystemReader.load_signal codec fs csv_path column channels row w
  = FileSystemReader.load_image codec fs
      (pathlib.to_str
         (pathlib.div (pathlib.parent (pathlib.of_str csv_path)) name))
      channels w
  /\ LMDBFileStorageReader.load_signal codec lm csv_path column channels row w'
     = LMDBFileStorageReader.load_image codec lm
         (pathlib.to_str
            (pathlib.div (pathlib.parent (pathlib.of_str csv_path)) name))
         channels w'.
Proof.
  intros Hrow Hc Hparts Hn. split.
  - rewrite (fs_load_signal_run codec fs csv_path column channels row name w
               Hrow).
    unfold pathlib.relative_to.
    rewrite fs_relative_value_rebases by assumption.
    do 2 f_equal.
    unfold pathlib.div, pathlib.join, pathlib.parent.
    rewrite Hn, Hc. simpl pathlib.root. simpl pathlib.parts.
    rewrite removelast_app by exact Hparts. rewrite <- app_assoc.
    now rewrite drop_app_length.
  - unfold LMDBFileStorageReader.load_signal, dict_getitem.
    rewrite Hrow. reflexivity.
Qed.

Lemma readers_agree_on_signal_path_witness :
  FileSystemReader.load_signal Samples.codec Samples.fs "sub/data.csv"
    "seg_map" 1 Samples.row_a Samples.w0
  = FileSystemReader.load_image Samples.codec Samples.fs "sub/masks/a.png" 1
      Samples.w0
  /\ LMDBFileStorageReader.load_signal Samples.codec Samples.lmdb
       "sub/data.csv" "seg_map" 1 Samples.row_a Samples.w0
     = LMDBFileStorageReader.load_image Samples.codec Samples.lmdb
         "sub/masks/a.png" 1 Samples.w0.
Proof.
  apply (readers_agree_on_signal_path Samples.codec Samples.fs Samples.lmdb
           "sub/data.csv" "seg_map" 1 Samples.row_a "masks/a.png"
           Samples.w0 Samples.w0); try reflexivity.
  discriminate.
Defined.

(** ** Specifiers compose *)

Lemma matches_entry_true (R : Row) (S : Specifier) :
  data_specifier_matches_entry R S = Ok true <->
  forall k v, S !! k = Some v -> R !! Some k = Some (csv.Str v).
Proof.
  unfold data_specifier_matches_entry.
  rewrite matches_items_true, Forall_forall. split.
  - intros H k v Hkv. apply (H (k, v)). now apply elem_of_map_to_list.
  - intros H [k v] Hin. apply elem_of_map_to_list in Hin. now apply H.
Qed.

(** X9. A row matches the union of two specifiers with disjoint columns
    exactly when it matches each of them: filtering by the union is
    filtering by one and then by the other. *)
Theorem specifier_union (R : Row) (S1 S2 : Specifier) :
  S1 ##ₘ S2 ->
  data_specifier_matches_entry R (S1 ∪ S2) = Ok true <->
  data_specifier_matches_entry R S1 = Ok true
  /\ data_specifier_matches_entry R S2 = Ok true.
Proof.
  intros Hdisj. rewrite !matches_entry_true. split.
  - intros H. split; intros k v Hkv; apply H.
    + now apply lookup_union_Some_l.
    + now apply lookup_union_Some_r.
  - intros [H1 H2] k v Hkv.
    apply lookup_union_Some in Hkv as [Hkv|Hkv]; [now apply H1 | now apply H2
                                                  | assumption].
Qed.

Lemma specifier_union_witness :
  data_specifier_matches_entry Samples.row_a
    ({[ "class" := "1" ]} ∪ {[ "seg_map" := "masks/a.png" ]}) = Ok true <->
  data_specifier_matches_entry Samples.row_a {[ "class" := "1" ]} = Ok true
  /\ data_specifier_matches_entry Samples.row_a
       {[ "seg_map" := "masks/a.png" ]} = Ok true.
Proof.
  apply (specifier_union Samples.row_a {[ "class" := "1" ]}
           {[ "seg_map" := "masks/a.png" ]}).
  apply map_disjoint_singleton_l. reflexivity.
Defined.

(** X10. A row that matches a specifier matches every specifier with
    fewer requirements: dropping pairs from a specifier never excludes a
    row. *)
Theorem specifier_weaken (R : Row) (S1 S2 : Specifier) :
  S1 ⊆ S2 ->
  data_specifier_matches_entry R S2 = Ok true ->
  data_specifier_matches_entry R S1 = Ok true.
Proof.
  intros Hsub. rewrite !matches_entry_true. intros H k v Hkv.
  apply H. exact (lookup_weaken _ _ _ _ Hkv Hsub).
Qed.

Lemma specifier_weaken_witness :
  data_specifier_matches_entry Samples.row_a {[ "class" := "1" ]} = Ok true.
Proof.
  apply (specifier_weaken Samples.row_a {[ "class" := "1" ]}
           (<[ "seg_map" := "masks/a.png" ]> {[ "class" := "1" ]})).
  - apply insert_subseteq. reflexivity.
  - reflexivity.
Defined.

(** ** Failures of the image operations *)

(** X11. [load_image] of the filesystem reader opens exactly one file,
    [root / path], and prints exactly one line, naming [path], exactly
    when it fails, whatever the failure (a missing file as well as bytes
    that are no image); when it returns an image it prints nothing. *)
Theorem fs_load_image_reports_every_failure (codec : Codec)
    (self : FileSystemReader.t) (path : string) (channels : Z) (w : world) :
  w_stdout (FileSystemReader.load_image codec self path channels w).2
  = w_stdout w ++
      (if is_Ok (FileSystemReader.load_image codec self path channels w).1
       then [] else [String.append "Failed to read: " path])
  /\ w_opened (FileSystemReader.load_image codec self path channels w).2
     = w_opened w ++ [pathlib.div (FileSystemReader.root_path self) path].
Proof.
  split; [|apply fs_load_image_opens].
  rewrite fs_load_image_run. cbv zeta.
  destruct (w_files w _) as [data|]; [|reflexivity].
  destruct (identify codec data) as [[m sz]|]; [|reflexivity].
  destruct (decode codec data); simpl; [|reflexivity].
  now rewrite app_nil_r.
Qed.

(** X12. For either reader, [get_image_size] needs the header only: for
    a resource the codec identifies it returns the size of the header,
    also when the pixel data does not decode, where [load_image] raises
    the decoding error. *)
Theorem get_image_size_needs_header_only (codec : Codec) (r : reader)
    (path : string) (w : world) (data m : string) (sz : Z * Z) :
  Reader.resource r w path = Some data ->
  identify codec data = Some (m, sz) ->
  (Reader.get_image_size codec r path w).1 = Ok sz
  /\ (decode codec data = None ->
      forall channels,
        (Reader.load_image codec r path channels w).1 = Raise ImageLoadError).
Proof.
  intros Hres Hid. destruct r as [r|r]; simpl in *.
  - rewrite fs_get_image_size_run. cbv zeta. rewrite Hres, Hid.
    split; [reflexivity|]. intros Hdec channels.
    rewrite fs_load_image_run. cbv zeta. now rewrite Hres, Hid, Hdec.
  - rewrite lmdb_get_image_size_run, Hres. cbv zeta. rewrite Hid.
    split; [reflexivity|]. intros Hdec channels.
    rewrite lmdb_load_image_run, Hres. cbv zeta. now rewrite Hid, Hdec.
Qed.

Lemma get_image_size_needs_header_only_witness :
  (Reader.get_image_size Samples.codec (LMDB MoreSamples.lmdb)
     "sub/trunc.png" Samples.w0).1 = Ok (2, 1)%Z
  /\ (decode Samples.codec MoreSamples.truncated_bytes = None ->
      forall channels,
        (Reader.load_image Samples.codec (LMDB MoreSamples.lmdb)
           "sub/trunc.png" channels Samples.w0).1 = Raise ImageLoadError).
Proof.
  apply (get_image_size_needs_header_only Samples.codec
           (LMDB MoreSamples.lmdb) "sub/trunc.png" Samples.w0
           MoreSamples.truncated_bytes "P" (2, 1)%Z); reflexivity.
Defined.

(** X13. In the filesystem reader a missing file is a
    [FileNotFoundError] in every operation, after the one attempt to open
    it: [read_csv_file], [get_image_size], [load_image] (which also
    prints the path) and, for a missing CSV file,
    [load_signals_from_csv], which then opens nothing else. *)
Theorem fs_missing_file (codec : Codec) (self : FileSystemReader.t)
    (path : string) (w : world) :
  w_files w (pathlib.div (FileSystemReader.root_path self) path) = None ->
  let tried := log_open (pathlib.div (FileSystemReader.root_path self) path)
                 w in
  FileSystemReader.read_csv_file self path w = (Raise FileNotFoundError, tried)
  /\ FileSystemReader.get_image_size codec self path w
     = (Raise FileNotFoundError, tried)
  /\ (forall channels,
        FileSystemReader.load_image codec self path channels w
        = (Raise FileNotFoundError,
           log_print (String.append "Failed to read: " path) tried))
  /\ (forall column channels spec,
        FileSystemReader.load_signals_from_csv codec self path column
          channels spec w = (Raise FileNotFoundError, tried)).
Proof.
  intros Hmiss tried.
  assert (FileSystemReader.read_csv_file self path w
          = (Raise FileNotFoundError, tried)) as Hcsv.
  { unfold FileSystemReader.read_csv_file, bind, os_open. now rewrite Hmiss. }
  split; [exact Hcsv|]. split; [|split].
  - rewrite fs_get_image_size_run. cbv zeta. now rewrite Hmiss.
  - intros channels. rewrite fs_load_image_run. cbv zeta. now rewrite Hmiss.
  - intros column channels spec.
    unfold FileSystemReader.load_signals_from_csv.
    now rewrite (bind_raise _ _ _ _ _ Hcsv).
Qed.

Lemma fs_missing_file_witness :
  FileSystemReader.read_csv_file Samples.fs "nowhere.csv" Samples.w0
  = (Raise FileNotFoundError,
     log_open (pathlib.of_str "/data/nowhere.csv") Samples.w0)
  /\ FileSystemReader.get_image_size Samples.codec Samples.fs "nowhere.csv"
       Samples.w0
     = (Raise FileNotFoundError,
        log_open (pathlib.of_str "/data/nowhere.csv") Samples.w0)
  /\ (forall channels,
        FileSystemReader.load_image Samples.codec Samples.fs "nowhere.csv"
          channels Samples.w0
        = (Raise FileNotFoundError,
           log_print "Failed to read: nowhere.csv"
             (log_open (pathlib.of_str "/data/nowhere.csv") Samples.w0)))
  /\ (forall column channels spec,
        FileSystemReader.load_signals_from_csv Samples.codec Samples.fs
          "nowhere.csv" column channels spec Samples.w0
        = (Raise FileNotFoundError,
           log_open (pathlib.of_str "/data/nowhere.csv") Samples.w0)).
Proof.
  apply (fs_missing_file Samples.codec Samples.fs "nowhere.csv" Samples.w0).
  reflexivity.
Defined.

(** ** Filtering first *)

Lemma body_filter_first (spec : option Specifier) (load : Row -> M PIL.Image)
    (rows : list Row) acc w :
  for_each (signal_loop_body spec load) rows acc w
  = for_each (signal_loop_body None load) (List.filter (keeps spec) rows)
      acc w.
Proof.
  revert acc w. induction rows as [|row rows IH]; intros acc w;
    [reflexivity|].
  rewrite body_cons. simpl List.filter. destruct (keeps spec row).
  - rewrite body_cons. simpl keeps.
    destruct (load row w) as [[im|e] w1]; [apply IH | reflexivity].
  - apply IH.
Qed.

(** X14. In both readers the loop with a specifier does exactly what the
    loop without a specifier does on the rows the specifier keeps: same
    result, same world.  Filtering the rows before the call and passing
    no specifier is the same as passing the specifier. *)
Theorem signals_loop_filter_first (codec : Codec) (csv_path column : string)
    (channels : Z) (spec : option Specifier) (rows : list Row)
    (acc : list PIL.Image) (w : world) :
  (forall self : FileSystemReader.t,
     FileSystemReader.signals_loop codec self csv_path column channels spec
       rows acc w
     = FileSystemReader.signals_loop codec self csv_path column channels None
         (List.filter (keeps spec) rows) acc w)
  /\ (forall self : LMDBFileStorageReader.t,
        LMDBFileStorageReader.signals_loop codec self csv_path column
          channels spec rows acc w
        = LMDBFileStorageReader.signals_loop codec self csv_path column
            channels None (List.filter (keeps spec) rows) acc w).
Proof.
  split; intros self.
  - exact (body_filter_first spec
             (FileSystemReader.load_signal codec self csv_path column
                channels) rows acc w).
  - exact (body_filter_first spec
             (LMDBFileStorageReader.load_signal codec self csv_path column
                channels) rows acc w).
Qed.

(** ** Short rows *)

(** X15. For either reader, a kept row that comes from a record too
    short to reach the column has [None] in it, and loading its signal
    raises [TypeError], before anything is opened or printed: neither the
    [KeyError] of a missing column nor an error of the image. *)
Theorem load_signal_short_row (codec : Codec) (r : reader)
    (csv_path column : string) (channels : Z)
    (fieldnames rec : list string) (w : world) :
  length rec < length fieldnames ->
  column ∈ drop (length rec) fieldnames ->
  Reader.load_signal codec r csv_path column channels
    (csv.make_row fieldnames rec) w
  = (Raise TypeError, w).
Proof.
  intros Hlen Hcol.
  pose proof (make_row_short fieldnames rec column Hlen Hcol) as Hrow.
  destruct r as [r|r]; simpl.
  - unfold FileSystemReader.load_signal, dict_getitem. now rewrite Hrow.
  - unfold LMDBFileStorageReader.load_signal, dict_getitem. now rewrite Hrow.
Qed.

Lemma load_signal_short_row_witness :
  Reader.load_signal Samples.codec (FileSystem Samples.fs) "sub/ragged.csv"
    "class" 1 (csv.make_row ["seg_map"; "class"] ["masks/a.png"]) Samples.w0
  = (Raise TypeError, Samples.w0).
Proof.
  apply (load_signal_short_row Samples.codec (FileSystem Samples.fs)
           "sub/ragged.csv" "class" 1 ["seg_map"; "class"] ["masks/a.png"]
           Samples.w0).
  - simpl. lia.
  - simpl. apply list_elem_of_here.
Defined.
